(** * neuron-shim: a shallow embedding of the dispatcher, configuration
    loader, model path resolver and backend adapters, with the properties
    of its specification. *)

From Stdlib Require Import String Ascii ZArith List Bool Lia.
Import ListNotations.
Open Scope string_scope.

(* ================================================================== *)
(** ** C strings *)
(* ================================================================== *)

Module CStr.

(** [snprintf(buf, n + 1, "%s", s)] stores the first [n] bytes of [s]. *)
Definition trunc (n : nat) (s : string) : string := substring 0 n s.

Fixpoint last_char (s : string) : option ascii :=
  match s with
  | EmptyString => None
  | String c EmptyString => Some c
  | String _ t => last_char t
  end.

(** Decidable substring test: does [needle] occur in [hay]? *)
Fixpoint contains (needle hay : string) : bool :=
  prefix needle hay ||
  match hay with
  | EmptyString => false
  | String _ t => contains needle t
  end.

(** Bytes of a C string up to (not including) the first NUL. *)
Fixpoint c_str (s : string) : string :=
  match s with
  | EmptyString => EmptyString
  | String c t => if Ascii.eqb c "000"%char then EmptyString else String c (c_str t)
  end.

(** [%zu]: the decimal digits of a [size_t] (at most 20 of them). *)
Fixpoint dec_digits (fuel : nat) (n : Z) (acc : string) : string :=
  match fuel with
  | O => acc
  | S f =>
    let acc' := String (ascii_of_nat (48 + Z.to_nat (n mod 10))) acc in
    if (n <? 10)%Z then acc' else dec_digits f (n / 10)%Z acc'
  end.

Definition fmt_zu (n : Z) : string := dec_digits 20 n "".

End CStr.

(* ================================================================== *)
(** ** Model path resolver (src/model_resolver.c) *)
(* ================================================================== *)

Module Resolver.
Import CStr.

(** POSIX [basename] (libgen.h), as used on the copy [tmp] of the
    requested path: "." for the empty string, "/" for a string made of
    slashes only, otherwise the last component with trailing slashes
    removed. *)
Fixpoint strip_trailing_slashes_rev (r : list ascii) : list ascii :=
  match r with
  | "/"%char :: t => strip_trailing_slashes_rev t
  | _ => r
  end.

Definition basename (s : string) : string :=
  if String.eqb s "" then "."
  else
    let r := strip_trailing_slashes_rev (rev (list_ascii_of_string s)) in
    match r with
    | [] => "/"
    | _ =>
      (* characters after the last remaining slash *)
      let fix take (l : list ascii) : list ascii :=
        match l with
        | [] => []
        | "/"%char :: _ => []
        | c :: t => c :: take t
        end in
      string_of_list_ascii (rev (take r))
    end.

(** The string the two [snprintf] calls format into [resolved]. *)
Definition resolved_string (original_path suffix : string)
    (model_dir : option string) : string :=
  match model_dir with
  | Some d =>
    if String.eqb d "" then original_path ++ suffix
    else
      let tmp := trunc 1023 original_path in
      let base := basename tmp in
      let sep := match last_char d with
                 | Some "/"%char => ""
                 | _ => "/"
                 end in
      d ++ sep ++ base ++ suffix
  | None => original_path ++ suffix
  end.

Definition nl := String (ascii_of_nat 10) EmptyString.

Definition msg_too_long := "[neuron-shim] ERROR: resolved path too long" ++ nl.

Definition msg_not_found (original_path resolved : string) : string :=
  nl ++
  "╔══════════════════════════════════════════════════════════╗" ++ nl ++
  "║  neuron-shim: MODEL FILE NOT FOUND                      ║" ++ nl ++
  "╠══════════════════════════════════════════════════════════╣" ++ nl ++
  "║                                                          ║" ++ nl ++
  "║  Application requested:                                  ║" ++ nl ++
  "║    " ++ original_path ++ nl ++
  "║                                                          ║" ++ nl ++
  "║  Shim looked for:                                        ║" ++ nl ++
  "║    " ++ resolved ++ nl ++
  "║                                                          ║" ++ nl.

Definition msg_fix_redirect (model_dir suffix resolved : string) : string :=
  "║  model_dir is set to:                                     ║" ++ nl ++
  "║    " ++ model_dir ++ nl ++
  "║                                                          ║" ++ nl ++
  "║  To fix, place your converted model there:               ║" ++ nl ++
  "║    " ++ "cp your_model" ++ suffix ++ " " ++ resolved ++ nl.

Definition msg_fix_in_place (suffix resolved : string) : string :=
  "║  To fix, place the converted model next to the original: ║" ++ nl ++
  "║    " ++ "cp your_model" ++ suffix ++ " " ++ resolved ++ nl ++
  "║                                                          ║" ++ nl ++
  "║  Or set model_dir in neuron-shim.conf to redirect:       ║" ++ nl ++
  "║    model_dir = /opt/models                               ║" ++ nl.

Definition msg_footer : string :=
  "║                                                          ║" ++ nl ++
  "╚══════════════════════════════════════════════════════════╝" ++ nl ++ nl.

(** Result of [neuron_shim_resolve_model]: return code, contents of the
    output buffer ([None] when [snprintf] wrote nothing) and the
    messages written to stderr. *)
Record resolve_result := mk_resolve_result {
  rr_rc : Z;
  rr_buf : option string;
  rr_diag : list string
}.

Definition redirect (model_dir : option string) : bool :=
  match model_dir with
  | Some d => negb (String.eqb d "")
  | None => false
  end.

(** [readable p] is [access(p, R_OK) == 0] on the current filesystem.
    The output buffer is the caller's array of [resolved_len] bytes. *)
Definition neuron_shim_resolve_model (readable : string -> bool)
    (original_path suffix model_dir : option string)
    (resolved_len : nat) : resolve_result :=
  match original_path, suffix with
  | Some p, Some s =>
    let full := resolved_string p s model_dir in
    let buf := match resolved_len with
               | O => None
               | S n => Some (trunc n full)
               end in
    if Nat.leb resolved_len (String.length full) then
      mk_resolve_result (-1) buf [msg_too_long]
    else if readable full then
      mk_resolve_result 0 buf []
    else
      let fix_msg :=
        match model_dir with
        | Some d => if redirect model_dir then msg_fix_redirect d s full
                    else msg_fix_in_place s full
        | None => msg_fix_in_place s full
        end in
      mk_resolve_result (-1) buf [msg_not_found p full; fix_msg; msg_footer]
  | _, _ => mk_resolve_result (-1) None []
  end.

End Resolver.

(* ================================================================== *)
(** ** Configuration loader (src/config.c) *)
(* ================================================================== *)

Module Config.
Import CStr.

Record NeuronShimConfig := mk_config {
  backend : string;     (* char[32] *)
  suffix : string;      (* char[32] *)
  model_dir : string;   (* char[512] *)
  threads : Z;          (* int *)
  force_cpu : bool;
  log_level : Z         (* int *)
}.

(** The static initializer of [g_config]. *)
Definition g_config_init : NeuronShimConfig :=
  mk_config "auto" "auto" "" 4 false 3.

Definition is_space (c : ascii) : bool :=
  let n := nat_of_ascii c in (n =? 32)%nat || ((9 <=? n)%nat && (n <=? 13)%nat).

Definition is_digit (c : ascii) : bool :=
  let n := nat_of_ascii c in (48 <=? n)%nat && (n <=? 57)%nat.

(** [atoi(s)] is [(int) strtol(s, NULL, 10)]: leading white space, an
    optional sign, then the longest run of decimal digits (0 when there
    is none); [strtol] saturates at the [long] range and the conversion
    to [int] wraps modulo 2^32. *)
Fixpoint skip_space (s : string) : string :=
  match s with
  | String c t => if is_space c then skip_space t else s
  | EmptyString => s
  end.

Fixpoint digits_value (acc : Z) (s : string) : Z :=
  match s with
  | String c t =>
    if is_digit c then digits_value (10 * acc + (Z.of_nat (nat_of_ascii c) - 48))%Z t
    else acc
  | EmptyString => acc
  end.

Definition LONG_MIN : Z := (- 2 ^ 63)%Z.
Definition LONG_MAX : Z := (2 ^ 63 - 1)%Z.

Definition to_int (x : Z) : Z :=
  (let m := x mod 2 ^ 32 in if m >=? 2 ^ 31 then m - 2 ^ 32 else m)%Z.

Definition strtol10 (s : string) : Z :=
  let s := skip_space s in
  let v := match s with
           | String "-"%char t => Z.opp (digits_value 0 t)
           | String "+"%char t => digits_value 0 t
           | _ => digits_value 0 s
           end in
  Z.max LONG_MIN (Z.min LONG_MAX v).

Definition atoi (s : string) : Z := to_int (strtol10 s).

(** [fgets(line, 512, f)]: up to 511 bytes, stopping after a newline. *)
Fixpoint read_chunk (k : nat) (s : string) : string * string :=
  match k, s with
  | O, _ => ("", s)
  | _, EmptyString => ("", "")
  | S k', String c t =>
    if Ascii.eqb c (ascii_of_nat 10) then (String c "", t)
    else let (a, b) := read_chunk k' t in (String c a, b)
  end.

Fixpoint fgets_all (fuel : nat) (s : string) : list string :=
  match fuel with
  | O => []
  | S f =>
    match s with
    | EmptyString => []
    | _ => let (a, b) := read_chunk 511 s in a :: fgets_all f b
    end
  end.

Fixpoint skip_blank (s : string) : string :=
  match s with
  | String c t =>
    if Ascii.eqb c " "%char || Ascii.eqb c (ascii_of_nat 9) then skip_blank t else s
  | EmptyString => s
  end.

(** [%63[^= ]]: at most 63 bytes other than '=' and ' '. *)
Fixpoint scan_key (k : nat) (s : string) : string * string :=
  match k, s with
  | O, _ => ("", s)
  | _, EmptyString => ("", "")
  | S k', String c t =>
    if Ascii.eqb c "="%char || Ascii.eqb c " "%char then ("", s)
    else let (a, b) := scan_key k' t in (String c a, b)
  end.

(** [%511s] after its white-space skip: at most 511 non-space bytes. *)
Fixpoint scan_word (k : nat) (s : string) : string :=
  match k, s with
  | O, _ => ""
  | _, EmptyString => ""
  | S k', String c t => if is_space c then "" else String c (scan_word k' t)
  end.

(** [sscanf(p, "%63[^= ] = %511s", key, value) == 2]. *)
Definition sscanf_kv (p : string) : option (string * string) :=
  let (key, rest) := scan_key 63 p in
  if String.eqb key "" then None
  else
    match skip_space rest with
    | String "="%char rest2 =>
      let value := scan_word 511 (skip_space rest2) in
      if String.eqb value "" then None else Some (key, value)
    | _ => None
    end.

(** One [fgets] line of a config file: comment and blank lines are
    skipped, otherwise the [key = value] pair if [sscanf] matched both. *)
Definition parse_line (raw : string) : option (string * string) :=
  let p := skip_blank (c_str raw) in
  match p with
  | EmptyString => None
  | String c _ =>
    if Ascii.eqb c "#"%char || Ascii.eqb c (ascii_of_nat 10) then None
    else sscanf_kv p
  end.

Definition set_field (c : NeuronShimConfig) (kv : string * string)
    : NeuronShimConfig :=
  let (key, value) := kv in
  if String.eqb key "backend" then
    mk_config (trunc 31 value) (suffix c) (model_dir c) (threads c) (force_cpu c) (log_level c)
  else if String.eqb key "suffix" then
    mk_config (backend c) (trunc 31 value) (model_dir c) (threads c) (force_cpu c) (log_level c)
  else if String.eqb key "model_dir" then
    mk_config (backend c) (suffix c) (trunc 511 value) (threads c) (force_cpu c) (log_level c)
  else if String.eqb key "threads" then
    mk_config (backend c) (suffix c) (model_dir c) (atoi value) (force_cpu c) (log_level c)
  else if String.eqb key "force_cpu" then
    mk_config (backend c) (suffix c) (model_dir c) (threads c)
              (String.eqb value "true" || String.eqb value "1") (log_level c)
  else if String.eqb key "log_level" then
    mk_config (backend c) (suffix c) (model_dir c) (threads c) (force_cpu c) (atoi value)
  else c.

Definition apply_line (c : NeuronShimConfig) (raw : string) : NeuronShimConfig :=
  match parse_line raw with
  | Some kv => set_field c kv
  | None => c
  end.

(** [parse_config_file]: [None] is a file [fopen] cannot open. *)
Definition parse_config_file (file : option string) (c : NeuronShimConfig)
    : NeuronShimConfig :=
  match file with
  | None => c
  | Some txt => fold_left apply_line (fgets_all (String.length txt) txt) c
  end.

(** The six [NEURON_SHIM_*] variables; [None] when [getenv] is NULL. *)
Record env := mk_env {
  env_backend : option string;
  env_suffix : option string;
  env_model_dir : option string;
  env_num_threads : option string;
  env_force_cpu : option string;
  env_log_level : option string
}.

Definition apply_env (e : env) (c : NeuronShimConfig) : NeuronShimConfig :=
  let c := match env_backend e with
           | Some v => mk_config (trunc 31 v) (suffix c) (model_dir c) (threads c) (force_cpu c) (log_level c)
           | None => c end in
  let c := match env_suffix e with
           | Some v => mk_config (backend c) (trunc 31 v) (model_dir c) (threads c) (force_cpu c) (log_level c)
           | None => c end in
  let c := match env_model_dir e with
           | Some v => mk_config (backend c) (suffix c) (trunc 511 v) (threads c) (force_cpu c) (log_level c)
           | None => c end in
  let c := match env_num_threads e with
           | Some v => mk_config (backend c) (suffix c) (model_dir c) (atoi v) (force_cpu c) (log_level c)
           | None => c end in
  let c := match env_force_cpu e with
           | Some v => mk_config (backend c) (suffix c) (model_dir c) (threads c) (String.eqb v "1") (log_level c)
           | None => c end in
  match env_log_level e with
  | Some v => mk_config (backend c) (suffix c) (model_dir c) (threads c) (force_cpu c) (atoi v)
  | None => c
  end.

(** [neuron_shim_config_load], run once (under [pthread_once]) on the
    statically initialised [g_config]: /etc/neuron-shim.conf, then
    ./neuron-shim.conf, then the environment. *)
Definition neuron_shim_config_load (etc_file local_file : option string) (e : env)
    : NeuronShimConfig :=
  apply_env e (parse_config_file local_file (parse_config_file etc_file g_config_init)).

(** [neuron_shim_config_get_suffix]. *)
Definition neuron_shim_config_get_suffix (cfg : NeuronShimConfig) : string :=
  if negb (String.eqb (suffix cfg) "auto") then suffix cfg
  else if String.eqb (backend cfg) "tflite" then ".tflite"
  else ".onnx".

End Config.

(* ================================================================== *)
(** ** Backend selection and one-time initialisation
       (src/backend_selector.c, shim_global_init in src/shim_runtime.c) *)
(* ================================================================== *)

Module Selector.

Inductive backend_kind := OnnxBackend | TfliteBackend | StubBackend.

(** The build ([SHIM_HAS_ONNX], [SHIM_HAS_TFLITE]) and the result of the
    [dlopen] probes for libonnxruntime.so and libtensorflowlite_c.so. *)
Record platform := mk_platform {
  has_onnx : bool;
  has_tflite : bool;
  onnx_lib_loadable : bool;
  tflite_lib_loadable : bool
}.

Definition neuron_shim_select_backend (pf : platform) (name : option string)
    : backend_kind :=
  let explicit :=
    match name with
    | Some n =>
      if has_onnx pf && String.eqb n "onnx" then Some OnnxBackend
      else if has_tflite pf && String.eqb n "tflite" then Some TfliteBackend
      else if String.eqb n "stub" then Some StubBackend
      else None
    | None => None
    end in
  match explicit with
  | Some b => b
  | None =>
    if has_onnx pf && onnx_lib_loadable pf then OnnxBackend
    else if has_tflite pf && tflite_lib_loadable pf then TfliteBackend
    else StubBackend
  end.

(** The globals set by [shim_global_init]. *)
Record globals := mk_globals {
  g_config : Config.NeuronShimConfig;
  g_backend : backend_kind;
  g_suffix : string;
  g_log_level : Z
}.

Definition shim_global_init (pf : platform) (etc_file local_file : option string)
    (e : Config.env) : globals :=
  let cfg := Config.neuron_shim_config_load etc_file local_file e in
  let b := neuron_shim_select_backend pf
             (if String.eqb (Config.backend cfg) "auto" then None
              else Some (Config.backend cfg)) in
  mk_globals cfg b (Config.neuron_shim_config_get_suffix cfg) (Config.log_level cfg).

End Selector.

(* ================================================================== *)
(** ** Memory and list helpers shared by the adapters *)
(* ================================================================== *)

Module Mem.

(** Caller memory: byte addresses to byte values; address 0 is NULL. *)
Definition mem := nat -> Z.

Definition memset0 (m : mem) (dst len : nat) : mem :=
  fun a => if (dst <=? a)%nat && (a <? dst + len)%nat then 0%Z else m a.

(** [l[i] = x] on a fixed-size array, [i] within bounds. *)
Fixpoint upd {A} (l : list A) (i : nat) (x : A) : list A :=
  match l, i with
  | [], _ => []
  | _ :: t, O => x :: t
  | y :: t, S i' => y :: upd t i' x
  end.

End Mem.

(* ================================================================== *)
(** ** Stub backend (src/backend_stub.c) *)
(* ================================================================== *)

Module Stub.
Import Mem.

Definition MAX_TENSORS : Z := 32.

Record StubContext := mk_stub {
  model_path : string;
  inputs : list nat;              (* inputs[i].size, 32 entries *)
  outputs : list (nat * nat);     (* (outputs[i].size, outputs[i].buf) *)
  input_count : Z;
  output_count : Z;
  inference_count : Z
}.

(** [stub_create]: a [calloc]'d context. *)
Definition stub_create : StubContext :=
  mk_stub "" (repeat 0%nat 32) (repeat (0%nat, 0%nat) 32) 0 0 0.

Definition stub_load_from_file (c : StubContext) (path : string) : Z * StubContext :=
  (0%Z, mk_stub (CStr.trunc 1023 path) (inputs c) (outputs c) 1 1 (inference_count c)).

Definition stub_get_input_count (c : StubContext) : Z * Z :=
  (0%Z, if (input_count c >? 0)%Z then input_count c else 1%Z).

Definition stub_get_output_count (c : StubContext) : Z * Z :=
  (0%Z, if (output_count c >? 0)%Z then output_count c else 1%Z).

(** Index-based accessors and setters take a C [int]; a negative index
    passes the [index < MAX_TENSORS] guard and accesses outside the
    array, which is undefined behaviour: [None]. *)
Definition stub_get_input_size (c : StubContext) (index : Z) : option (Z * nat) :=
  if (index <? 0)%Z then None
  else Some (0%Z,
    if (index <? MAX_TENSORS)%Z && (0 <? nth (Z.to_nat index) (inputs c) 0)%nat
    then nth (Z.to_nat index) (inputs c) 0%nat else 1024%nat).

Definition stub_get_output_size (c : StubContext) (index : Z) : option (Z * nat) :=
  if (index <? 0)%Z then None
  else Some (0%Z,
    if (index <? MAX_TENSORS)%Z && (0 <? fst (nth (Z.to_nat index) (outputs c) (0, 0)))%nat
    then fst (nth (Z.to_nat index) (outputs c) (0, 0))%nat else 1024%nat).

Definition stub_set_input (c : StubContext) (index : Z) (size : nat)
    : option (Z * StubContext) :=
  if (index <? 0)%Z then None
  else if (index <? MAX_TENSORS)%Z then
    Some (0%Z, mk_stub (model_path c) (upd (inputs c) (Z.to_nat index) size) (outputs c)
                 (if (index >=? input_count c)%Z then index + 1 else input_count c)%Z
                 (output_count c) (inference_count c))
  else Some (0%Z, c).

Definition stub_set_output (c : StubContext) (index : Z) (buf size : nat)
    : option (Z * StubContext) :=
  if (index <? 0)%Z then None
  else if (index <? MAX_TENSORS)%Z then
    Some (0%Z, mk_stub (model_path c) (inputs c) (upd (outputs c) (Z.to_nat index) (size, buf))
                 (input_count c)
                 (if (index >=? output_count c)%Z then index + 1 else output_count c)%Z
                 (inference_count c))
  else Some (0%Z, c).

(** The [memset] calls of [stub_invoke], in loop order, as
    (destination, length). *)
Definition stub_invoke_writes (c : StubContext) : list (nat * nat) :=
  flat_map (fun i =>
              let '(size, buf) := nth i (outputs c) (0, 0)%nat in
              if (buf =? 0)%nat || (size =? 0)%nat then [] else [(buf, size)])
           (seq 0 (Z.to_nat (Z.min (output_count c) MAX_TENSORS))).

(** [c->inference_count++] increments a C [int]: the count is kept in [Z],
    which is the C value as long as it stays at most [INT_MAX] (the
    increment past [INT_MAX] is undefined behaviour). *)
Definition stub_invoke (c : StubContext) (m : mem) : Z * StubContext * mem :=
  (0%Z,
   mk_stub (model_path c) (inputs c) (outputs c) (input_count c) (output_count c)
           (inference_count c + 1)%Z,
   fold_left (fun m '(dst, len) => memset0 m dst len) (stub_invoke_writes c) m).

(** Calls the dispatcher forwards to the stub. *)
Inductive stub_op :=
| OpLoadFile (path : string)
| OpSetInput (index : Z) (size : nat)
| OpSetOutput (index : Z) (buf size : nat)
| OpInvoke.

Definition stub_step (st : StubContext * mem) (op : stub_op)
    : option (StubContext * mem) :=
  let '(c, m) := st in
  match op with
  | OpLoadFile p => Some (snd (stub_load_from_file c p), m)
  | OpSetInput i s => option_map (fun r => (snd r, m)) (stub_set_input c i s)
  | OpSetOutput i b s => option_map (fun r => (snd r, m)) (stub_set_output c i b s)
  | OpInvoke => let '(_, c', m') := stub_invoke c m in Some (c', m')
  end.

Fixpoint stub_run (st : StubContext * mem) (ops : list stub_op)
    : option (StubContext * mem) :=
  match ops with
  | [] => Some st
  | op :: rest =>
    match stub_step st op with
    | Some st' => stub_run st' rest
    | None => None
    end
  end.

(** [stub_load_from_buffer]: the model path records the buffer size. *)
Definition stub_load_from_buffer (c : StubContext) (size : Z) : Z * StubContext :=
  (0%Z, mk_stub (CStr.trunc 1023 ("<buffer:" ++ CStr.fmt_zu size ++ " bytes>"))
                (inputs c) (outputs c) 1 1 (inference_count c)).

End Stub.

(* ================================================================== *)
(** ** ONNX Runtime backend (src/backend_onnx.c) *)
(* ================================================================== *)

Module Onnx.
Import Mem.
Local Open Scope Z_scope.

Definition MAX_TENSORS : Z := 32.

(** [(size_t)index] for a C [int] index. *)
Definition to_size_t (x : Z) : Z := (x mod 2 ^ 64)%Z.

(** [ONNXTensorElementDataType] codes of onnxruntime_c_api.h. *)
Definition ort_element_size (ty : Z) : Z :=
  match ty with
  | 1 => 4 (* FLOAT *)   | 2 => 1 (* UINT8 *)  | 3 => 1 (* INT8 *)
  | 4 => 2 (* UINT16 *)  | 5 => 2 (* INT16 *)  | 6 => 4 (* INT32 *)
  | 7 => 8 (* INT64 *)   | 10 => 2 (* FLOAT16 *) | 11 => 8 (* DOUBLE *)
  | 9 => 1 (* BOOL *)
  | _ => 4
  end%Z.

(** [compute_tensor_size]: non-positive (dynamic) dimensions count as 1;
    [size_t] products wrap modulo 2^64. *)
Definition compute_tensor_size (shape : list Z) (ty : Z) : Z :=
  fold_left (fun total d => (total * (if (d <=? 0)%Z then 1 else d)) mod 2 ^ 64)%Z
            shape (ort_element_size ty).

Record OnnxContext := mk_onnx {
  session : bool;                    (* c->session != NULL *)
  input_sizes : list Z;              (* inputs[i].size *)
  input_count : Z;                   (* size_t *)
  output_sizes : list Z;             (* outputs[i].size *)
  output_count : Z;                  (* size_t, at most 32 *)
  input_bindings : list (nat * Z);   (* (buf, size) *)
  output_bindings : list (nat * Z)   (* (buf, size) *)
}.

Definition onnx_get_input_size (c : OnnxContext) (index : Z) : Z * option Z :=
  if (to_size_t index >=? input_count c)%Z then (-1%Z, None)
  else (0%Z, Some (nth (Z.to_nat index) (input_sizes c) 0%Z)).

Definition onnx_get_output_size (c : OnnxContext) (index : Z) : Z * option Z :=
  if (to_size_t index >=? output_count c)%Z then (-1%Z, None)
  else (0%Z, Some (nth (Z.to_nat index) (output_sizes c) 0%Z)).

Definition onnx_set_output (c : OnnxContext) (index : Z) (buf : nat) (size : Z)
    : Z * OnnxContext :=
  if (to_size_t index >=? MAX_TENSORS)%Z then (-1%Z, c)
  else (0%Z, mk_onnx (session c) (input_sizes c) (input_count c) (output_sizes c)
                     (output_count c) (input_bindings c)
                     (upd (output_bindings c) (Z.to_nat index) (buf, size))).

(** What ONNX Runtime answers during one [onnx_invoke]: whether
    [CreateTensorWithDataAsOrtValue] succeeds for input [i], whether
    [Run] succeeds, whether it produced output value [i], and whether
    [GetTensorMutableData] succeeds on it. *)
Record ort_answers := mk_ort {
  create_tensor_ok : nat -> bool;
  run_ok : bool;
  output_present : nat -> bool;
  get_data_ok : nat -> bool
}.

(** The output copy loop: the [memcpy] calls (destination, length) made
    so far, and [false] when [ORT_CHECK] returned early. *)
Fixpoint copy_outputs (c : OnnxContext) (ort : ort_answers) (idx : list nat)
    : bool * list (nat * Z) :=
  match idx with
  | [] => (true, [])
  | i :: rest =>
    let '(buf, bsize) := nth i (output_bindings c) (0%nat, 0%Z) in
    if output_present ort i && negb (buf =? 0)%nat then
      if get_data_ok ort i then
        let copy_size := if (bsize >? nth i (output_sizes c) 0)%Z
                         then nth i (output_sizes c) 0%Z else bsize in
        let '(ok, w) := copy_outputs c ort rest in (ok, (buf, copy_size) :: w)
      else (false, [])
    else copy_outputs c ort rest
  end.

(** [onnx_invoke]: return code and the writes into caller buffers. *)
Definition onnx_invoke (c : OnnxContext) (ort : ort_answers) : Z * list (nat * Z) :=
  if negb (session c) then (-1%Z, [])
  else if negb (forallb (create_tensor_ok ort) (seq 0 (Z.to_nat (input_count c))))
  then (-1%Z, [])
  else if negb (run_ok ort) then (-1%Z, [])
  else
    let '(ok, w) := copy_outputs c ort (seq 0 (Z.to_nat (output_count c))) in
    ((if ok then 0 else -1)%Z, w).

(** The context right after [calloc] in [onnx_create]. *)
Definition onnx_calloc : OnnxContext :=
  mk_onnx false (repeat 0%Z 32) 0 (repeat 0%Z 32) 0
          (repeat (0%nat, 0%Z) 32) (repeat (0%nat, 0%Z) 32).

Definition onnx_set_input (c : OnnxContext) (index : Z) (buf : nat) (size : Z)
    : Z * OnnxContext :=
  if (to_size_t index >=? MAX_TENSORS)%Z then (-1%Z, c)
  else (0%Z, mk_onnx (session c) (input_sizes c) (input_count c) (output_sizes c)
                     (output_count c) (upd (input_bindings c) (Z.to_nat index) (buf, size))
                     (output_bindings c)).

(** [*count = (uint32_t)c->input_count]. *)
Definition onnx_get_input_count (c : OnnxContext) : Z * Z :=
  (0%Z, input_count c mod 2 ^ 32).

Definition onnx_get_output_count (c : OnnxContext) : Z * Z :=
  (0%Z, output_count c mod 2 ^ 32).

(** What ONNX Runtime answers while a model is loaded: whether the
    session is created, whether [GetAllocatorWithDefaultOptions]
    succeeds, the counts [SessionGetInputCount] / [SessionGetOutputCount]
    report ([None] when the call fails), and for tensor [i] its
    dimensions and element type ([None] when one of the name, type-info,
    element-type or dimension queries fails). *)
Record ort_model := mk_ort_model {
  create_session_ok : bool;
  allocator_ok : bool;
  model_input_count : option Z;
  model_output_count : option Z;
  model_input : nat -> option (list Z * Z);
  model_output : nat -> option (list Z * Z)
}.

(** The metadata loop of [populate_tensor_info] for one direction:
    [Some (false, sizes)] when an [ORT_CHECK] returned early, [None]
    when [GetDimensions] writes more than the 8 entries of [shape]
    (out of bounds). *)
Fixpoint fill_sizes (meta : nat -> option (list Z * Z)) (idx : list nat) (sizes : list Z)
    : option (bool * list Z) :=
  match idx with
  | [] => Some (true, sizes)
  | i :: rest =>
    match meta i with
    | None => Some (false, sizes)
    | Some (shape, ty) =>
      if (8 <? length shape)%nat then None
      else fill_sizes meta rest (upd sizes i (compute_tensor_size shape ty))
    end
  end.

(** [if (count > MAX_TENSORS) count = MAX_TENSORS]. *)
Definition clamp_count (n : Z) : Z := if (n >? MAX_TENSORS)%Z then MAX_TENSORS else n.

Definition populate_tensor_info (c : OnnxContext) (m : ort_model) : option (Z * OnnxContext) :=
  if negb (allocator_ok m) then Some (-1%Z, c) else
  match model_input_count m with
  | None => Some (-1%Z, c)
  | Some n =>
    let ic := clamp_count n in
    match fill_sizes (model_input m) (seq 0 (Z.to_nat ic)) (input_sizes c) with
    | None => None
    | Some (false, s) =>
      Some (-1%Z, mk_onnx (session c) s ic (output_sizes c) (output_count c)
                          (input_bindings c) (output_bindings c))
    | Some (true, s) =>
      match model_output_count m with
      | None => Some (-1%Z, mk_onnx (session c) s ic (output_sizes c) (output_count c)
                                    (input_bindings c) (output_bindings c))
      | Some n' =>
        let oc := clamp_count n' in
        match fill_sizes (model_output m) (seq 0 (Z.to_nat oc)) (output_sizes c) with
        | None => None
        | Some (ok, s') =>
          Some ((if ok then 0 else -1)%Z,
                mk_onnx (session c) s ic s' oc (input_bindings c) (output_bindings c))
        end
      end
    end
  end.

(** [onnx_load_from_file] (and [onnx_load_from_buffer], which differs
    only in creating the session from memory).  [CreateSession] /
    [CreateSessionFromArray] store NULL into [*out] ([&c->session])
    before loading, so a failed creation leaves the context without a
    session. *)
Definition onnx_load_from_file (c : OnnxContext) (m : ort_model) : option (Z * OnnxContext) :=
  if negb (create_session_ok m)
  then Some (-1%Z, mk_onnx false (input_sizes c) (input_count c) (output_sizes c)
                           (output_count c) (input_bindings c) (output_bindings c))
  else populate_tensor_info
         (mk_onnx true (input_sizes c) (input_count c) (output_sizes c) (output_count c)
                  (input_bindings c) (output_bindings c)) m.

End Onnx.

(* ================================================================== *)
(** ** TensorFlow Lite backend (src/backend_tflite.c) *)
(* ================================================================== *)

Module Tflite.
Import Mem.
Local Open Scope Z_scope.

Definition MAX_TENSORS : Z := 32.

Record TFLiteContext := mk_tflite {
  interpreter : bool;                 (* c->interpreter != NULL *)
  output_bindings : list (nat * Z);   (* (buf, size) *)
  output_binding_count : Z
}.

(** What the TFLite interpreter answers: [TfLiteInterpreterInvoke]
    succeeds or not, and the byte size of input / output tensor [i]
    ([None] for a NULL tensor). *)
Record tflite_answers := mk_tfl {
  invoke_ok : bool;
  input_tensor : Z -> option Z;
  output_tensor : Z -> option Z
}.

Definition tflite_get_input_size (c : TFLiteContext) (t : tflite_answers) (index : Z)
    : Z * option Z :=
  if negb (interpreter c) then (-1%Z, None)
  else match input_tensor t index with
       | None => (-1%Z, None)
       | Some n => (0%Z, Some n)
       end.

Definition tflite_get_output_size (c : TFLiteContext) (t : tflite_answers) (index : Z)
    : Z * option Z :=
  if negb (interpreter c) then (-1%Z, None)
  else match output_tensor t index with
       | None => (-1%Z, None)
       | Some n => (0%Z, Some n)
       end.

(** [TfLiteTensorCopyToBuffer(tensor, buf, n)] of the TFLite C API copies
    the tensor only when [n] equals its byte size, and otherwise writes
    nothing and returns an error (ignored by the caller). *)
Definition copy_to_buffer (tensor_bytes : Z) (buf : nat) (n : Z) : list (nat * Z) :=
  if (n =? tensor_bytes)%Z then [(buf, n)] else [].

Definition tflite_invoke (c : TFLiteContext) (t : tflite_answers) : Z * list (nat * Z) :=
  if negb (interpreter c) then (-1%Z, [])
  else if negb (invoke_ok t) then (-1%Z, [])
  else
    (0%Z,
     flat_map (fun i =>
                 let '(buf, bsize) := nth i (output_bindings c) (0%nat, 0%Z) in
                 if (buf =? 0)%nat then []
                 else match output_tensor t (Z.of_nat i) with
                      | None => []
                      | Some tsize =>
                        let copy_size := if (bsize >? tsize)%Z then tsize else bsize in
                        copy_to_buffer tsize buf copy_size
                      end)
              (seq 0 (Z.to_nat (output_binding_count c)))).

(** The context right after [calloc] in [tflite_create]. *)
Definition tflite_calloc : TFLiteContext :=
  mk_tflite false (repeat (0%nat, 0%Z) 32) 0.

(** [tflite_set_output] checks only [index >= MAX_TENSORS]; a negative
    index writes before the array (undefined behaviour): [None]. *)
Definition tflite_set_output (c : TFLiteContext) (index : Z) (buf : nat) (size : Z)
    : option (Z * TFLiteContext) :=
  if (index <? 0)%Z then None
  else if (index >=? MAX_TENSORS)%Z then Some (-1%Z, c)
  else Some (0%Z, mk_tflite (interpreter c)
                            (upd (output_bindings c) (Z.to_nat index) (buf, size))
                            (if (index >=? output_binding_count c)%Z then index + 1
                             else output_binding_count c)).

(** [tflite_set_input]; [TfLiteTensorCopyFromBuffer(tensor, buf, n)]
    succeeds only when [n] equals the tensor's byte size. *)
Definition tflite_set_input (c : TFLiteContext) (t : tflite_answers) (index : Z) (size : Z)
    : Z :=
  if negb (interpreter c) then -1
  else match input_tensor t index with
       | None => -1
       | Some n => if (size =? n)%Z then 0 else -1
       end.

(** [tflite_get_input_count] / [tflite_get_output_count], [n] being the
    count the interpreter reports. *)
Definition tflite_get_count (c : TFLiteContext) (n : Z) : Z * option Z :=
  if negb (interpreter c) then (-1, None) else (0, Some (n mod 2 ^ 32)).

(** What the TFLite library answers during a load:
    [TfLiteModelCreateFromFile] (or [TfLiteModelCreate]) returns a model,
    [TfLiteInterpreterCreate] returns an interpreter, and
    [TfLiteInterpreterAllocateTensors] returns [kTfLiteOk]. *)
Record tflite_load_answers := mk_tfl_load {
  model_created : bool;
  interpreter_created : bool;
  allocate_ok : bool
}.

Definition tflite_build_interpreter (c : TFLiteContext) (a : tflite_load_answers)
    : Z * TFLiteContext :=
  let c' := mk_tflite (interpreter_created a) (output_bindings c) (output_binding_count c) in
  if negb (interpreter_created a) then (-1, c')
  else if negb (allocate_ok a) then (-1, c')
  else (0, c').

(** [tflite_load_from_file] / [tflite_load_from_buffer]. *)
Definition tflite_load_from_file (c : TFLiteContext) (a : tflite_load_answers)
    : Z * TFLiteContext :=
  if negb (model_created a) then (-1, c)
  else tflite_build_interpreter c a.

End Tflite.

(* ================================================================== *)
(** ** Runtime dispatcher (src/shim_runtime.c) *)
(* ================================================================== *)

Module Runtime.
Import Selector Resolver.
Local Open Scope Z_scope.

(** [NeuronRuntime] error codes (include/RuntimeAPI.h). *)
Definition NEURONRUNTIME_NO_ERROR : Z := 0.
Definition NEURONRUNTIME_BAD_DATA : Z := 1.
Definition NEURONRUNTIME_BAD_STATE : Z := 2.
Definition NEURONRUNTIME_UNEXPECTED_NULL : Z := 3.
Definition NEURONRUNTIME_INCOMPLETE : Z := 4.
Definition NEURONRUNTIME_OUTPUT_INSUFFICIENT : Z := 5.
Definition NEURONRUNTIME_UNAVAILABLE : Z := 6.
Definition NEURONRUNTIME_OP_FAILED : Z := 7.
Definition NEURONRUNTIME_UNMAPPABLE : Z := 8.

(** Calls through the backend vtable [rt->backend]. *)
Inductive adapter_call :=
| AdDestroy
| AdLoadFromFile (path : string)
| AdLoadFromBuffer (buf : nat) (size : Z)
| AdGetInputCount
| AdGetOutputCount
| AdGetInputSize (index : Z)
| AdGetOutputSize (index : Z)
| AdSetInput (index : Z) (buf : nat) (size : Z)
| AdSetOutput (index : Z) (buf : nat) (size : Z)
| AdInvoke.

(** Either the entry point returns without calling the adapter, or it
    makes one adapter call and maps the adapter's return value to its own
    return code (and further stderr lines). *)
Inductive outcome :=
| Return (code : Z)
| Forward (call : adapter_call) (k : Z -> Z * list string).

(** The public entry points other than [NeuronRuntime_create]; pointer
    arguments are addresses, 0 being NULL. *)
Inductive api_call :=
| Release
| LoadNetworkFromFile (path : option string)
| LoadNetworkFromBuffer (buffer : nat) (size : Z)
| SetInput (index : Z) (buffer : nat) (size : Z) (padding : Z)
| SetOutput (index : Z) (buffer : nat) (size : Z) (padding : Z)
| GetInputCount (count : nat)
| GetOutputCount (count : nat)
| GetInputSize (index : Z) (size : nat)
| GetOutputSize (index : Z) (size : nat)
| GetInputInfo (index : Z) (info : nat)
| GetOutputInfo (index : Z) (info : nat)
| Inference
| SetQoSOption (qos : nat)
| GetProfiledQoSData (qos : nat).

(** [SHIM_LOG(level, tag, fmt, ...)]. *)
Definition shim_log (g : globals) (level : Z) (tag text : string) : list string :=
  if g_log_level g >=? level then ["[neuron-shim][" ++ tag ++ "] " ++ text ++ nl]
  else [].

Definition LOG_ERR g := shim_log g 1 "ERROR".
Definition LOG_INFO g := shim_log g 3 "INFO".

Definition ok_or_failed (ret : Z) : Z * list string :=
  (if ret =? 0 then NEURONRUNTIME_NO_ERROR else NEURONRUNTIME_OP_FAILED, []).

(** [NeuronRuntime_loadNetworkFromFile]: [readable] is the filesystem as
    seen by [access]. *)
Definition loadNetworkFromFile (g : globals) (readable : string -> bool)
    (runtime : nat) (path : option string) : outcome * list string :=
  match path with
  | Some p =>
    if (runtime =? 0)%nat then (Return NEURONRUNTIME_UNEXPECTED_NULL, [])
    else
      let log1 := LOG_INFO g ("loadNetwork: " ++ p) in
      let rr := neuron_shim_resolve_model readable (Some p) (Some (g_suffix g))
                  (Some (Config.model_dir (g_config g))) 1024 in
      let resolved := match rr_buf rr with Some r => r | None => "" end in
      if negb (rr_rc rr =? 0) then
        (Return NEURONRUNTIME_BAD_DATA,
         (log1 ++ rr_diag rr ++ LOG_ERR g ("model not found: " ++ p ++ g_suffix g))%list)
      else
        (Forward (AdLoadFromFile resolved)
           (fun ret => if ret =? 0 then (NEURONRUNTIME_NO_ERROR, [])
                       else (NEURONRUNTIME_OP_FAILED,
                             LOG_ERR g ("backend failed to load: " ++ resolved))),
         (log1 ++ LOG_INFO g ("loading: " ++ resolved))%list)
  | None => (Return NEURONRUNTIME_UNEXPECTED_NULL, [])
  end.

(** Every other entry point; stderr lines are modelled for
    [loadNetworkFromFile] only (the others log debug traces at most). *)
Definition dispatch (g : globals) (readable : string -> bool)
    (runtime : nat) (call : api_call) : outcome * list string :=
  let null_rt := (runtime =? 0)%nat in
  match call with
  | Release =>
    if null_rt then (Return NEURONRUNTIME_UNEXPECTED_NULL, [])
    else (Forward AdDestroy (fun _ => (NEURONRUNTIME_NO_ERROR, [])), [])
  | LoadNetworkFromFile path => loadNetworkFromFile g readable runtime path
  | LoadNetworkFromBuffer buffer size =>
    if null_rt || (buffer =? 0)%nat then (Return NEURONRUNTIME_UNEXPECTED_NULL, [])
    else (Forward (AdLoadFromBuffer buffer size) ok_or_failed, [])
  | SetInput index buffer size _ =>
    if null_rt then (Return NEURONRUNTIME_UNEXPECTED_NULL, [])
    else (Forward (AdSetInput index buffer size) ok_or_failed, [])
  | SetOutput index buffer size _ =>
    if null_rt then (Return NEURONRUNTIME_UNEXPECTED_NULL, [])
    else (Forward (AdSetOutput index buffer size) ok_or_failed, [])
  | GetInputCount count =>
    if null_rt || (count =? 0)%nat then (Return NEURONRUNTIME_UNEXPECTED_NULL, [])
    else (Forward AdGetInputCount ok_or_failed, [])
  | GetOutputCount count =>
    if null_rt || (count =? 0)%nat then (Return NEURONRUNTIME_UNEXPECTED_NULL, [])
    else (Forward AdGetOutputCount ok_or_failed, [])
  | GetInputSize index size =>
    if null_rt || (size =? 0)%nat then (Return NEURONRUNTIME_UNEXPECTED_NULL, [])
    else (Forward (AdGetInputSize index) ok_or_failed, [])
  | GetOutputSize index size =>
    if null_rt || (size =? 0)%nat then (Return NEURONRUNTIME_UNEXPECTED_NULL, [])
    else (Forward (AdGetOutputSize index) ok_or_failed, [])
  | GetInputInfo index info =>
    if null_rt || (info =? 0)%nat then (Return NEURONRUNTIME_UNEXPECTED_NULL, [])
    else (Forward (AdGetInputSize index) ok_or_failed, [])
  | GetOutputInfo index info =>
    if null_rt || (info =? 0)%nat then (Return NEURONRUNTIME_UNEXPECTED_NULL, [])
    else (Forward (AdGetOutputSize index) ok_or_failed, [])
  | Inference =>
    if null_rt then (Return NEURONRUNTIME_UNEXPECTED_NULL, [])
    else (Forward AdInvoke ok_or_failed, [])
  | SetQoSOption _ => (Return NEURONRUNTIME_NO_ERROR, [])
  | GetProfiledQoSData _ => (Return NEURONRUNTIME_NO_ERROR, [])
  end.

End Runtime.

(* ================================================================== *)
(** ** The dispatcher running on the stub backend *)
(* ================================================================== *)

Module StubRuntime.
Import Mem Stub Runtime.
Local Open Scope Z_scope.

(** One vtable call on the stub: its return value, the new context and
    the caller memory (output buffers).  The counts and sizes the getters
    store are those of the [Stub] accessors; [None] is undefined
    behaviour (a negative index). *)
Definition stub_adapter (call : adapter_call) (c : StubContext) (m : mem)
    : option (Z * StubContext * mem) :=
  match call with
  | AdDestroy => Some (0, c, m)
  | AdLoadFromFile p => let (r, c') := stub_load_from_file c p in Some (r, c', m)
  | AdLoadFromBuffer _ size => let (r, c') := stub_load_from_buffer c size in Some (r, c', m)
  | AdGetInputCount => Some (fst (stub_get_input_count c), c, m)
  | AdGetOutputCount => Some (fst (stub_get_output_count c), c, m)
  | AdGetInputSize i => option_map (fun r => (fst r, c, m)) (stub_get_input_size c i)
  | AdGetOutputSize i => option_map (fun r => (fst r, c, m)) (stub_get_output_size c i)
  | AdSetInput i _ size =>
    option_map (fun r => (fst r, snd r, m)) (stub_set_input c i (Z.to_nat size))
  | AdSetOutput i buf size =>
    option_map (fun r => (fst r, snd r, m)) (stub_set_output c i buf (Z.to_nat size))
  | AdInvoke => let '(r, c', m') := stub_invoke c m in Some (r, c', m')
  end.

(** A public entry point called on a runtime whose backend is the stub:
    the code returned to the application. *)
Definition stub_entry (g : Selector.globals) (readable : string -> bool) (runtime : nat)
    (call : api_call) (c : StubContext) (m : mem) : option (Z * StubContext * mem) :=
  match fst (dispatch g readable runtime call) with
  | Return code => Some (code, c, m)
  | Forward ac k =>
    match stub_adapter ac c m with
    | Some (r, c', m') => Some (fst (k r), c', m')
    | None => None
    end
  end.

End StubRuntime.

(* ================================================================== *)
(** ** The specification's formulas, stated over the definitions above *)
(* ================================================================== *)

Module SpecSide.

(** Spec, model resolution rule: [P + S] without a redirect directory,
    [D + "/" (only if D lacks a trailing separator) + baseName(P) + S]
    with one, [baseName] being POSIX [basename]. *)
Definition resolve_spec (p s : string) (md : option string) : string :=
  match md with
  | Some d =>
    if String.eqb d "" then p ++ s
    else d ++ (match CStr.last_char d with Some "/"%char => "" | _ => "/" end)
           ++ Resolver.basename p ++ s
  | None => p ++ s
  end.

(** Spec, configuration precedence: the pairs a config file contributes,
    the value a file gives a key (its last line wins), and the value of
    a field taken from the highest-precedence source that sets it:
    environment, then ./neuron-shim.conf, then /etc/neuron-shim.conf,
    then the compiled default. *)
Definition file_pairs (file : option string) : list (string * string) :=
  match file with
  | None => []
  | Some txt =>
    flat_map (fun l => match Config.parse_line l with Some kv => [kv] | None => [] end)
             (Config.fgets_all (String.length txt) txt)
  end.

Definition last_value (k : string) (ps : list (string * string)) : option string :=
  fold_left (fun acc kv => if String.eqb (fst kv) k then Some (snd kv) else acc) ps None.

Definition first_some {A} (a b c : option A) : option A :=
  match a with
  | Some x => Some x
  | None => match b with Some x => Some x | None => c end
  end.

Definition pick {A} (env_v local_v system_v : option A) (dflt : A) : A :=
  match first_some env_v local_v system_v with Some x => x | None => dflt end.

Definition field_by_precedence {A} (etc_file local_file : option string)
    (env_v : option string) (from_env : string -> A) (key : string)
    (from_file : string -> A) (dflt : A) : A :=
  pick (option_map from_env env_v)
       (option_map from_file (last_value key (file_pairs local_file)))
       (option_map from_file (last_value key (file_pairs etc_file)))
       dflt.

Definition config_by_precedence (etc_file local_file : option string) (e : Config.env)
    : Config.NeuronShimConfig :=
  let field {A} := @field_by_precedence A etc_file local_file in
  Config.mk_config
    (field (Config.env_backend e) (CStr.trunc 31) "backend" (CStr.trunc 31) "auto")
    (field (Config.env_suffix e) (CStr.trunc 31) "suffix" (CStr.trunc 31) "auto")
    (field (Config.env_model_dir e) (CStr.trunc 511) "model_dir" (CStr.trunc 511) "")
    (field (Config.env_num_threads e) Config.atoi "threads" Config.atoi 4%Z)
    (field (Config.env_force_cpu e) (fun v => String.eqb v "1") "force_cpu"
           (fun v => String.eqb v "true" || String.eqb v "1") false)
    (field (Config.env_log_level e) Config.atoi "log_level" Config.atoi 3%Z).

(** [atoi] finds digits: after white space and an optional sign, the
    next byte is a decimal digit. *)
Definition starts_digit (s : string) : bool :=
  match s with String c _ => Config.is_digit c | EmptyString => false end.

Definition atoi_parses (s : string) : bool :=
  match Config.skip_space s with
  | String "-"%char t => starts_digit t
  | String "+"%char t => starts_digit t
  | t => starts_digit t
  end.

(** Public calls that are QoS no-ops, and calls whose required pointer
    argument (path, model buffer, count/size/info out-pointer) is NULL. *)
Definition is_qos (call : Runtime.api_call) : bool :=
  match call with
  | Runtime.SetQoSOption _ | Runtime.GetProfiledQoSData _ => true
  | _ => false
  end.

Definition null_required_arg (call : Runtime.api_call) : bool :=
  match call with
  | Runtime.LoadNetworkFromFile None => true
  | Runtime.LoadNetworkFromBuffer b _ => (b =? 0)%nat
  | Runtime.GetInputCount p | Runtime.GetOutputCount p => (p =? 0)%nat
  | Runtime.GetInputSize _ p | Runtime.GetOutputSize _ p => (p =? 0)%nat
  | Runtime.GetInputInfo _ p | Runtime.GetOutputInfo _ p => (p =? 0)%nat
  | _ => false
  end.

(** Spec, stub zero-fill: an operation after [setOutput(i, ...)] that
    leaves binding [i] in place (no rebinding of [i], no model load,
    which resets the output count). *)
Definition keeps_binding (i : Z) (op : Stub.stub_op) : bool :=
  match op with
  | Stub.OpLoadFile _ => false
  | Stub.OpSetOutput j _ _ => negb (Z.eqb i j)
  | _ => true
  end.

(** Spec, stub: address [a] lies in a buffer currently bound to some
    output index below the output count. *)
Definition covered_by_binding (c : Stub.StubContext) (a : nat) : bool :=
  existsb (fun i => let '(size, buf) := nth i (Stub.outputs c) (0, 0)%nat in
                    negb (buf =? 0)%nat && (buf <=? a)%nat && (a <? buf + size)%nat)
          (seq 0 (Z.to_nat (Z.min (Stub.output_count c) 32))).

End SpecSide.

(* ================================================================== *)
(** ** Observations used to state further properties of the code *)
(* ================================================================== *)

Module Observe.

Definition is_invoke (op : Stub.stub_op) : bool :=
  match op with Stub.OpInvoke => true | _ => false end.

(** The writes [stub_invoke] makes for output index 0 alone. *)
Definition binding0_writes (c : Stub.StubContext) : list (nat * nat) :=
  let '(size, buf) := nth 0 (Stub.outputs c) (0, 0)%nat in
  if (buf =? 0)%nat || (size =? 0)%nat then [] else [(buf, size)].

(** The index argument of an entry point is not negative. *)
Definition nonneg_index (call : Runtime.api_call) : bool :=
  match call with
  | Runtime.SetInput i _ _ _ | Runtime.SetOutput i _ _ _
  | Runtime.GetInputSize i _ | Runtime.GetOutputSize i _
  | Runtime.GetInputInfo i _ | Runtime.GetOutputInfo i _ => (0 <=? i)%Z
  | _ => true
  end.

Definition is_load_file (call : Runtime.api_call) : bool :=
  match call with Runtime.LoadNetworkFromFile _ => true | _ => false end.

(** Null pointer arguments an entry point dereferences or forwards. *)
Definition null_arg (call : Runtime.api_call) : bool :=
  match call with
  | Runtime.LoadNetworkFromFile None => true
  | Runtime.LoadNetworkFromBuffer b _ => (b =? 0)%nat
  | Runtime.GetInputCount p | Runtime.GetOutputCount p => (p =? 0)%nat
  | Runtime.GetInputSize _ p | Runtime.GetOutputSize _ p => (p =? 0)%nat
  | Runtime.GetInputInfo _ p | Runtime.GetOutputInfo _ p => (p =? 0)%nat
  | _ => false
  end.

(** A file as the concatenation of its lines. *)
Definition join_lines (ls : list string) : string := fold_right String.append "" ls.

Fixpoint has_char (c : ascii) (s : string) : bool :=
  match s with
  | EmptyString => false
  | String d t => Ascii.eqb c d || has_char c t
  end.

(** A line [fgets(line, 512, f)] returns whole: a body without newline
    of at most 510 bytes, then a newline. *)
Definition fgets_line (l : string) : Prop :=
  exists body, l = body ++ Resolver.nl /\ has_char (ascii_of_nat 10) body = false /\
               String.length body <= 510.

Fixpoint all_chars (f : ascii -> bool) (s : string) : bool :=
  match s with
  | EmptyString => true
  | String c t => f c && all_chars f t
  end.

(** A [%s] word: non-empty, no white space, no NUL. *)
Definition word (v : string) : bool :=
  negb (String.eqb v "") &&
  all_chars (fun c => negb (Config.is_space c) && negb (Ascii.eqb c "000"%char)) v.

Definition prod (l : list Z) : Z := fold_right Z.mul 1%Z l.

(** Both stub counts lie in 0..MAX_TENSORS. *)
Definition counts_ok (c : Stub.StubContext) : Prop :=
  (0 <= Stub.input_count c <= 32)%Z /\ (0 <= Stub.output_count c <= 32)%Z.

(** The newline byte. *)
Definition NL : ascii := ascii_of_nat 10.

(** The keys [set_field] recognises. *)
Definition config_keys : list string :=
  ["backend"; "suffix"; "model_dir"; "threads"; "force_cpu"; "log_level"].

(** Invariant on the sizes of the [char] arrays of the configuration. *)
Definition fields_fit (c : Config.NeuronShimConfig) : Prop :=
  String.length (Config.backend c) <= 31 /\ String.length (Config.suffix c) <= 31 /\
  String.length (Config.model_dir c) <= 511.

(** [k] slash bytes. *)
Fixpoint slashes (k : nat) : string :=
  match k with O => "" | S k => String "/" (slashes k) end.

(** The local [take] of [Resolver.basename]: bytes up to the first '/'. *)
Fixpoint base_take (l : list ascii) : list ascii :=
  match l with
  | [] => []
  | "/"%char :: _ => []
  | c :: t => c :: base_take t
  end.

End Observe.

(* ================================================================== *)
(** ** Proofs *)
(* ================================================================== *)

Module CStrFacts.
Import CStr.

Lemma prefix_app (a b : string) : prefix a (a ++ b) = true.
Proof.
  induction a as [|c a IH]; simpl.
  - destruct b; reflexivity.
  - destruct (ascii_dec c c) as [_|n]; [exact IH | congruence].
Qed.

Lemma contains_app (x a b : string) : contains x (a ++ x ++ b) = true.
Proof.
  induction a as [|c a IH]; simpl.
  - destruct x; simpl.
    + destruct b; reflexivity.
    + destruct (ascii_dec a a) as [_|n]; [|congruence].
      rewrite prefix_app. reflexivity.
  - rewrite IH. apply orb_true_r.
Qed.

Lemma trunc_id (n : nat) (s : string) : String.length s <= n -> trunc n s = s.
Proof.
  unfold trunc. revert n. induction s as [|c s IH]; intros n H; simpl.
  - destruct n; reflexivity.
  - destruct n as [|n]; simpl in H; [lia|]. simpl. f_equal. apply IH. lia.
Qed.

Lemma sappend_assoc (a b c : string) : (a ++ b) ++ c = a ++ b ++ c.
Proof. induction a as [|x a IH]; simpl; [reflexivity | rewrite IH; reflexivity]. Qed.

Lemma contains_here (x b : string) : contains x (x ++ b) = true.
Proof. destruct x; simpl; [destruct b; reflexivity|].
  destruct (ascii_dec a a) as [_|n]; [|congruence]. rewrite prefix_app. reflexivity.
Qed.

Lemma contains_later (x a t : string) : contains x t = true -> contains x (a ++ t) = true.
Proof.
  intros H. induction a as [|c a IH]; simpl; [exact H|]. rewrite IH. apply orb_true_r.
Qed.

End CStrFacts.

Module MemFacts.
Import Mem.

Lemma nth_upd_eq {A} (l : list A) i x d : (i < length l)%nat -> nth i (upd l i x) d = x.
Proof.
  revert i. induction l as [|y t IH]; intros [|i] H; simpl in *; try lia; auto.
  apply IH. lia.
Qed.

Lemma nth_upd_neq {A} (l : list A) i j x d : i <> j -> nth j (upd l i x) d = nth j l d.
Proof.
  revert i j. induction l as [|y t IH]; intros [|i] [|j] H; simpl; auto; try congruence.
Qed.

Lemma length_upd {A} (l : list A) i x : length (upd l i x) = length l.
Proof. revert i. induction l; intros [|i]; simpl; auto. Qed.

End MemFacts.

Module ResolverProofs.
Import CStr CStrFacts Resolver SpecSide.

Lemma contains_here4 (a b c d e : string) :
  contains (a ++ b ++ c ++ d) (a ++ b ++ c ++ d ++ e) = true.
Proof.
  replace (a ++ b ++ c ++ d ++ e) with ((a ++ b ++ c ++ d) ++ e)
    by (rewrite !sappend_assoc; reflexivity).
  apply contains_here.
Qed.

Lemma resolved_string_spec (p s : string) (md : option string) :
  String.length p < 1024 -> resolved_string p s md = resolve_spec p s md.
Proof.
  intros H. unfold resolved_string, resolve_spec.
  destruct md as [d|]; [|reflexivity].
  destruct (String.eqb d ""); [reflexivity|].
  rewrite trunc_id by lia. reflexivity.
Qed.

Lemma resolve_buf (readable : string -> bool) (p s : string) (md : option string)
    (len : nat) :
  String.length (resolved_string p s md) < len ->
  rr_buf (neuron_shim_resolve_model readable (Some p) (Some s) md len)
  = Some (resolved_string p s md).
Proof.
  intros H. unfold neuron_shim_resolve_model.
  destruct len as [|n]; [lia|].
  rewrite (trunc_id n) by lia.
  destruct (Nat.leb (S n) _); [reflexivity|].
  destruct (readable _); reflexivity.
Qed.

(** C1 (amended): when the requested path is shorter than the 1024-byte
    copy [tmp] and the formatted result fits the output buffer, the
    buffer receives exactly [P + S] (no or empty redirect directory) or
    [D + sep + basename(P) + S], [sep] being empty when [D] ends in '/'
    and "/" otherwise. *)
Theorem resolve_model_writes_formula (readable : string -> bool) (p s : string)
    (md : option string) (len : nat) :
  String.length p < 1024 ->
  String.length (resolve_spec p s md) < len ->
  rr_buf (neuron_shim_resolve_model readable (Some p) (Some s) md len)
  = Some (resolve_spec p s md).
Proof.
  intros Hp Hlen. rewrite <- (resolved_string_spec p s md Hp) in *.
  apply resolve_buf. exact Hlen.
Qed.

Lemma resolve_model_writes_formula_witness :
  String.length "/data/m.dla" < 1024 /\
  String.length (resolve_spec "/data/m.dla" ".onnx" (Some "/opt/models/")) < 1024 /\
  rr_buf (neuron_shim_resolve_model (fun _ => true) (Some "/data/m.dla") (Some ".onnx")
            (Some "/opt/models/") 1024)
  = Some (resolve_spec "/data/m.dla" ".onnx" (Some "/opt/models/")).
Proof.
  split; [vm_compute; lia|]. split; [vm_compute; lia|].
  apply resolve_model_writes_formula; vm_compute; lia.
Defined.

(** C1 (counterexample): the separator test looks only at the redirect
    directory, so the requested path "/" (basename "/") under "/opt"
    gives "/opt//.onnx", a doubled separator. *)
Lemma resolve_model_doubled_separator :
  rr_buf (neuron_shim_resolve_model (fun _ => true) (Some "/") (Some ".onnx")
            (Some "/opt") 1024) = Some "/opt//.onnx" /\
  contains "//" "/opt//.onnx" = true.
Proof. split; vm_compute; reflexivity. Qed.

End ResolverProofs.

Module LoadProofs.
Import CStr CStrFacts Resolver Selector Runtime ResolverProofs.

Ltac find_sub :=
  repeat first [ apply contains_here4 | apply contains_here | apply contains_later ].

(** C8 (amended): on a non-null handle, when the computed path is not
    readable, [NeuronRuntime_loadNetworkFromFile] returns
    NEURONRUNTIME_BAD_DATA without calling the adapter, whatever the
    filesystem says about the requested path; when the computed path is
    shorter than the 1024-byte buffer, stderr also receives a message
    naming both the requested and the computed path and one holding the
    command [cp your_model<suffix> <computed path>]. *)
Theorem load_missing_model_bad_data (g : globals) (readable : string -> bool)
    (runtime : nat) (p : string) :
  runtime <> 0%nat ->
  readable (resolved_string p (g_suffix g) (Some (Config.model_dir (g_config g)))) = false ->
  fst (dispatch g readable runtime (LoadNetworkFromFile (Some p)))
    = Return NEURONRUNTIME_BAD_DATA /\
  (String.length (resolved_string p (g_suffix g) (Some (Config.model_dir (g_config g))))
     < 1024 ->
   (exists m, In m (snd (dispatch g readable runtime (LoadNetworkFromFile (Some p)))) /\
      contains p m = true /\
      contains (resolved_string p (g_suffix g) (Some (Config.model_dir (g_config g)))) m
        = true) /\
   (exists m, In m (snd (dispatch g readable runtime (LoadNetworkFromFile (Some p)))) /\
      contains ("cp your_model" ++ g_suffix g ++ " " ++
                resolved_string p (g_suffix g) (Some (Config.model_dir (g_config g)))) m
        = true)).
Proof.
  intros Hrt Hread.
  change (dispatch g readable runtime (LoadNetworkFromFile (Some p)))
    with (loadNetworkFromFile g readable runtime (Some p)).
  unfold loadNetworkFromFile, neuron_shim_resolve_model.
  set (full := resolved_string p (g_suffix g) (Some (Config.model_dir (g_config g)))) in *.
  destruct (Nat.eqb_spec runtime 0) as [E|_]; [contradiction|].
  destruct (Nat.leb_spec 1024 (String.length full)) as [Hlong|Hshort].
  - simpl. split; [reflexivity|]. intros H. lia.
  - rewrite Hread. split; [reflexivity|]. intros _. split.
    + exists (msg_not_found p full). split.
      * simpl. apply in_or_app. right. simpl. left. reflexivity.
      * unfold msg_not_found. split; find_sub.
    + destruct (redirect (Some (Config.model_dir (g_config g)))).
      * exists (msg_fix_redirect (Config.model_dir (g_config g)) (g_suffix g) full).
        split; [simpl; apply in_or_app; right; simpl; right; left; reflexivity|].
        unfold msg_fix_redirect. find_sub.
      * exists (msg_fix_in_place (g_suffix g) full).
        split; [simpl; apply in_or_app; right; simpl; right; left; reflexivity|].
        unfold msg_fix_in_place. find_sub.
Qed.

Lemma load_missing_model_bad_data_witness :
  let g := mk_globals (Config.mk_config "auto" "auto" "/opt/models" 4 false 3)
             StubBackend ".onnx" 3 in
  (1 <> 0)%nat /\
  (fun _ : string => false) (resolved_string "/data/m.dla" ".onnx" (Some "/opt/models")) = false /\
  fst (dispatch g (fun _ => false) 1 (LoadNetworkFromFile (Some "/data/m.dla")))
    = Return NEURONRUNTIME_BAD_DATA.
Proof.
  intros g. split; [lia|]. split; [reflexivity|].
  exact (proj1 (load_missing_model_bad_data g (fun _ => false) 1 "/data/m.dla"
                  ltac:(lia) eq_refl)).
Defined.

(** C8 (counterexample): with model_dir "/opt" and a requested path of
    1101 bytes, the computed path "/opt/" + 1022 'a' + ".onnx" is longer
    than the 1024-byte buffer; the call returns NEURONRUNTIME_BAD_DATA
    but no stderr line names the computed path or gives a copy command. *)
Lemma load_long_path_no_named_diagnostic :
  let p := "/" ++ string_of_list_ascii (repeat "a"%char 1100) in
  let g := mk_globals (Config.mk_config "auto" "auto" "/opt" 4 false 3)
             StubBackend ".onnx" 3 in
  fst (dispatch g (fun _ => false) 1 (LoadNetworkFromFile (Some p)))
    = Return NEURONRUNTIME_BAD_DATA /\
  existsb (contains (resolved_string p ".onnx" (Some "/opt")))
    (snd (dispatch g (fun _ => false) 1 (LoadNetworkFromFile (Some p)))) = false /\
  existsb (contains "cp your_model")
    (snd (dispatch g (fun _ => false) 1 (LoadNetworkFromFile (Some p)))) = false.
Proof. vm_compute. split; [reflexivity|]. split; reflexivity. Qed.

End LoadProofs.

Module ConfigProofs.
Import CStr Config SpecSide.

Lemma parse_config_file_pairs (file : option string) (c : NeuronShimConfig) :
  parse_config_file file c = fold_left set_field (file_pairs file) c.
Proof.
  destruct file as [txt|]; [|reflexivity]. simpl.
  generalize (fgets_all (String.length txt) txt) as ls. intros ls.
  revert c. induction ls as [|l ls IH]; intros c; [reflexivity|].
  simpl. unfold apply_line. destruct (parse_line l) as [kv|]; simpl; apply IH.
Qed.

Definition or_else {A} (o : option string) (f : string -> A) (d : A) : A :=
  match o with Some v => f v | None => d end.

Lemma last_value_snoc (k : string) (ps : list (string * string)) (kv : string * string) :
  last_value k (ps ++ [kv]) =
  if String.eqb (fst kv) k then Some (snd kv) else last_value k ps.
Proof. unfold last_value. rewrite fold_left_app. reflexivity. Qed.

Lemma fold_set_field (ps : list (string * string)) (c : NeuronShimConfig) :
  fold_left set_field ps c =
  mk_config (or_else (last_value "backend" ps) (trunc 31) (backend c))
            (or_else (last_value "suffix" ps) (trunc 31) (suffix c))
            (or_else (last_value "model_dir" ps) (trunc 511) (model_dir c))
            (or_else (last_value "threads" ps) atoi (threads c))
            (or_else (last_value "force_cpu" ps)
                     (fun v => String.eqb v "true" || String.eqb v "1") (force_cpu c))
            (or_else (last_value "log_level" ps) atoi (log_level c)).
Proof.
  induction ps as [|[k v] ps IH] using rev_ind.
  - destruct c; reflexivity.
  - rewrite fold_left_app. simpl. rewrite IH. rewrite !last_value_snoc. simpl.
    unfold set_field. simpl.
    destruct (String.eqb_spec k "backend") as [->|_]; [reflexivity|].
    destruct (String.eqb_spec k "suffix") as [->|_]; [reflexivity|].
    destruct (String.eqb_spec k "model_dir") as [->|_]; [reflexivity|].
    destruct (String.eqb_spec k "threads") as [->|_]; [reflexivity|].
    destruct (String.eqb_spec k "force_cpu") as [->|_]; [reflexivity|].
    destruct (String.eqb_spec k "log_level") as [->|_]; reflexivity.
Qed.

Lemma apply_env_fields (e : env) (c : NeuronShimConfig) :
  apply_env e c =
  mk_config (or_else (env_backend e) (trunc 31) (backend c))
            (or_else (env_suffix e) (trunc 31) (suffix c))
            (or_else (env_model_dir e) (trunc 511) (model_dir c))
            (or_else (env_num_threads e) atoi (threads c))
            (or_else (env_force_cpu e) (fun v => String.eqb v "1") (force_cpu c))
            (or_else (env_log_level e) atoi (log_level c)).
Proof.
  unfold apply_env. destruct c.
  destruct (env_backend e), (env_suffix e), (env_model_dir e),
           (env_num_threads e), (env_force_cpu e), (env_log_level e); reflexivity.
Qed.

Lemma or_else_pick {A} (a b c : option string) (f g : string -> A) (d : A) :
  or_else a f (or_else b g (or_else c g d)) =
  pick (option_map f a) (option_map g b) (option_map g c) d.
Proof. destruct a, b, c; reflexivity. Qed.

Lemma config_load_fields (etc_file local_file : option string) (e : env) :
  neuron_shim_config_load etc_file local_file e = config_by_precedence etc_file local_file e.
Proof.
  unfold neuron_shim_config_load, config_by_precedence, field_by_precedence.
  rewrite !parse_config_file_pairs, !fold_set_field, apply_env_fields.
  cbn [backend suffix model_dir threads force_cpu log_level g_config_init].
  rewrite !or_else_pick. reflexivity.
Qed.

(** C3: every field of the snapshot built by [neuron_shim_config_load]
    comes from the highest-precedence source that sets it: the
    environment variable if set, else the last line of ./neuron-shim.conf
    setting it, else the last line of /etc/neuron-shim.conf setting it,
    else the compiled default; sources are merged field by field. *)
Theorem config_load_precedence (etc_file local_file : option string) (e : env) :
  neuron_shim_config_load etc_file local_file e = config_by_precedence etc_file local_file e.
Proof. apply config_load_fields. Qed.

Lemma digits_value_no_digit (x : string) :
  starts_digit x = false -> digits_value 0 x = 0%Z.
Proof. destruct x as [|c t]; simpl; [reflexivity|]. intros H. rewrite H. reflexivity. Qed.

Lemma atoi_unparsed (s : string) : atoi_parses s = false -> atoi s = 0%Z.
Proof.
  unfold atoi, strtol10, atoi_parses. destruct (skip_space s) as [|a t]; [reflexivity|].
  intros H.
  destruct a as [[] [] [] [] [] [] [] []]; simpl in *; try discriminate;
    try (rewrite (digits_value_no_digit t H)); reflexivity.
Qed.

(** C7 (amended): a numeric field (threads, log_level) whose deciding
    source (by precedence) holds a value [atoi] cannot parse is 0 in the
    snapshot, not its compiled default. *)
Theorem numeric_unparsed_is_zero (etc_file local_file : option string) (e : env) :
  (forall v, first_some (env_num_threads e) (last_value "threads" (file_pairs local_file))
               (last_value "threads" (file_pairs etc_file)) = Some v ->
             atoi_parses v = false ->
             threads (neuron_shim_config_load etc_file local_file e) = 0%Z) /\
  (forall v, first_some (env_log_level e) (last_value "log_level" (file_pairs local_file))
               (last_value "log_level" (file_pairs etc_file)) = Some v ->
             atoi_parses v = false ->
             log_level (neuron_shim_config_load etc_file local_file e) = 0%Z).
Proof.
  rewrite config_load_fields.
  unfold config_by_precedence, field_by_precedence, pick. simpl.
  split; intros v Hv Hp;
  [ destruct (env_num_threads e), (last_value "threads" (file_pairs local_file)),
             (last_value "threads" (file_pairs etc_file))
  | destruct (env_log_level e), (last_value "log_level" (file_pairs local_file)),
             (last_value "log_level" (file_pairs etc_file)) ];
  simpl in *; try discriminate; injection Hv as <-; apply atoi_unparsed; exact Hp.
Qed.

Lemma numeric_unparsed_is_zero_witness :
  threads (neuron_shim_config_load None None
             (mk_env None None None (Some "abc") None None)) = 0%Z.
Proof.
  apply (proj1 (numeric_unparsed_is_zero None None
                  (mk_env None None None (Some "abc") None None)) "abc");
  reflexivity.
Defined.

(** C7 (counterexample): NEURON_SHIM_NUM_THREADS=abc and
    NEURON_SHIM_LOG_LEVEL=x, no config files: threads is 0 (not 4) and
    log_level is 0 (not 3). *)
Lemma numeric_unparsed_not_default :
  threads (neuron_shim_config_load None None
             (mk_env None None None (Some "abc") None (Some "x"))) = 0%Z /\
  log_level (neuron_shim_config_load None None
               (mk_env None None None (Some "abc") None (Some "x"))) = 0%Z.
Proof. split; vm_compute; reflexivity. Qed.

End ConfigProofs.

Module SuffixProofs.
Import Selector.

(** C4 (amended): with suffix "auto" the model suffix is ".tflite" when
    the configured backend string is "tflite" and ".onnx" otherwise; it
    depends on the configuration only, not on which backend the selector
    returns on this platform. *)
Theorem auto_suffix_from_config (pf1 pf2 : platform) (etc_file local_file : option string)
    (e : Config.env) :
  Config.suffix (Config.neuron_shim_config_load etc_file local_file e) = "auto" ->
  g_suffix (shim_global_init pf1 etc_file local_file e)
  = g_suffix (shim_global_init pf2 etc_file local_file e) /\
  g_suffix (shim_global_init pf1 etc_file local_file e)
  = (if String.eqb (Config.backend (Config.neuron_shim_config_load etc_file local_file e))
          "tflite" then ".tflite" else ".onnx").
Proof.
  intros H. unfold shim_global_init. simpl.
  unfold Config.neuron_shim_config_get_suffix. rewrite H. simpl. split; reflexivity.
Qed.

Lemma auto_suffix_from_config_witness :
  let e := Config.mk_env None None None None None None in
  let pf := mk_platform true true false true in
  Config.suffix (Config.neuron_shim_config_load None None e) = "auto" /\
  g_suffix (shim_global_init pf None None e) = ".onnx".
Proof.
  intros e pf. split; [reflexivity|].
  exact (proj2 (auto_suffix_from_config pf pf None None e eq_refl)).
Defined.

(** C4 (counterexample): both engines built in, only the TFLite library
    present, default configuration (backend "auto", suffix "auto"):
    auto-detection selects the tflite backend but the suffix is ".onnx". *)
Lemma auto_detected_tflite_gets_onnx_suffix :
  let e := Config.mk_env None None None None None None in
  let pf := mk_platform true true false true in
  g_backend (shim_global_init pf None None e) = TfliteBackend /\
  g_suffix (shim_global_init pf None None e) = ".onnx".
Proof. split; vm_compute; reflexivity. Qed.

End SuffixProofs.

Module NullProofs.
Import Selector Runtime SpecSide.

(** C5 (what the code checks): the QoS calls always return
    NEURONRUNTIME_NO_ERROR, even on a NULL handle; every other entry
    point returns NEURONRUNTIME_UNEXPECTED_NULL without calling the
    adapter on a NULL handle or on a NULL required pointer (path, model
    buffer, count, size or info out-pointer); setInput/setOutput do not
    check the data buffer pointer and forward a NULL buffer to the
    adapter. *)
Theorem null_checks_at_boundary (g : globals) (readable : string -> bool)
    (runtime : nat) (call : api_call) :
  (is_qos call = true ->
   fst (dispatch g readable runtime call) = Return NEURONRUNTIME_NO_ERROR) /\
  (is_qos call = false -> runtime = 0%nat ->
   fst (dispatch g readable runtime call) = Return NEURONRUNTIME_UNEXPECTED_NULL) /\
  (null_required_arg call = true ->
   fst (dispatch g readable runtime call) = Return NEURONRUNTIME_UNEXPECTED_NULL) /\
  (forall index size padding, runtime <> 0%nat ->
   fst (dispatch g readable runtime (SetInput index 0 size padding))
   = Forward (AdSetInput index 0 size) ok_or_failed /\
   fst (dispatch g readable runtime (SetOutput index 0 size padding))
   = Forward (AdSetOutput index 0 size) ok_or_failed).
Proof.
  split; [|split; [|split]].
  - intros H. destruct call; simpl in H; try discriminate; reflexivity.
  - intros H ->. destruct call; simpl in H; try discriminate; try reflexivity.
    destruct path; reflexivity.
  - intros H. destruct call; simpl in H; try discriminate;
      try (simpl; rewrite H, orb_true_r; reflexivity).
    destruct path; [discriminate|reflexivity].
  - intros index size padding Hrt. simpl.
    destruct (Nat.eqb_spec runtime 0); [contradiction|]. split; reflexivity.
Qed.

Lemma null_checks_at_boundary_witness :
  let g := mk_globals Config.g_config_init StubBackend ".onnx" 3 in
  fst (dispatch g (fun _ => false) 0 Inference) = Return NEURONRUNTIME_UNEXPECTED_NULL.
Proof.
  intros g.
  exact (proj1 (proj2 (null_checks_at_boundary g (fun _ => false) 0 Inference))
           eq_refl eq_refl).
Defined.

(** C5 (code bug): with a non-NULL handle, NeuronRuntime_loadNetworkFromBuffer
    rejects a NULL buffer with NEURONRUNTIME_UNEXPECTED_NULL, but
    NeuronRuntime_setInput and NeuronRuntime_setOutput forward a NULL
    buffer to the adapter, and with the stub backend setInput(rt, 0,
    NULL, 16, 0) returns NEURONRUNTIME_NO_ERROR. *)
Lemma set_input_null_buffer_forwarded :
  let g := mk_globals Config.g_config_init StubBackend ".onnx" 3 in
  fst (dispatch g (fun _ => false) 1 (LoadNetworkFromBuffer 0 16))
  = Return NEURONRUNTIME_UNEXPECTED_NULL /\
  fst (dispatch g (fun _ => false) 1 (SetInput 0 0 16 0))
  = Forward (AdSetInput 0 0 16) ok_or_failed /\
  fst (dispatch g (fun _ => false) 1 (SetOutput 0 0 16 0))
  = Forward (AdSetOutput 0 0 16) ok_or_failed /\
  option_map (fun r => fst (fst r))
    (StubRuntime.stub_entry g (fun _ => false) 1 (SetInput 0 0 16 0)
                            Stub.stub_create (fun _ => 0%Z))
  = Some NEURONRUNTIME_NO_ERROR.
Proof. vm_compute. repeat split. Qed.

End NullProofs.

Module IndexProofs.

Lemma to_size_t_int (x : Z) :
  (- 2 ^ 31 <= x < 2 ^ 31)%Z ->
  Onnx.to_size_t x = (if (x <? 0)%Z then x + 2 ^ 64 else x)%Z.
Proof.
  intros H. unfold Onnx.to_size_t.
  destruct (Z.ltb_spec x 0).
  - symmetry. apply Z.mod_unique with (q := (-1)%Z); lia.
  - apply Z.mod_small. lia.
Qed.

(** C6 (amended): the ONNX accessors fail (-1) for every [int] index
    that is negative or at least the model's input / output count; the
    TFLite accessors fail when there is no interpreter or the
    interpreter has no tensor at that index; the stub accessors never
    fail on a non-negative index and report the recorded size or 1024. *)
Theorem size_accessors_out_of_range :
  (forall (c : Onnx.OnnxContext) (index : Z),
     (- 2 ^ 31 <= index < 2 ^ 31)%Z -> (0 <= Onnx.input_count c < 2 ^ 63)%Z ->
     (index < 0 \/ Onnx.input_count c <= index)%Z ->
     fst (Onnx.onnx_get_input_size c index) = (-1)%Z) /\
  (forall (c : Onnx.OnnxContext) (index : Z),
     (- 2 ^ 31 <= index < 2 ^ 31)%Z -> (0 <= Onnx.output_count c < 2 ^ 63)%Z ->
     (index < 0 \/ Onnx.output_count c <= index)%Z ->
     fst (Onnx.onnx_get_output_size c index) = (-1)%Z) /\
  (forall (c : Tflite.TFLiteContext) (t : Tflite.tflite_answers) (index : Z),
     Tflite.interpreter c = false \/ Tflite.input_tensor t index = None ->
     fst (Tflite.tflite_get_input_size c t index) = (-1)%Z) /\
  (forall (c : Tflite.TFLiteContext) (t : Tflite.tflite_answers) (index : Z),
     Tflite.interpreter c = false \/ Tflite.output_tensor t index = None ->
     fst (Tflite.tflite_get_output_size c t index) = (-1)%Z) /\
  (forall (c : Stub.StubContext) (index : Z), (0 <= index)%Z ->
     Stub.stub_get_input_size c index
     = Some (0%Z, let n := nth (Z.to_nat index) (Stub.inputs c) 0%nat in
                  if (index <? Stub.MAX_TENSORS)%Z && (0 <? n)%nat then n else 1024%nat) /\
     Stub.stub_get_output_size c index
     = Some (0%Z, let n := fst (nth (Z.to_nat index) (Stub.outputs c) (0, 0)%nat) in
                  if (index <? Stub.MAX_TENSORS)%Z && (0 <? n)%nat then n else 1024%nat)).
Proof.
  split; [|split; [|split; [|split]]].
  - intros c index Hi Hc Hr. unfold Onnx.onnx_get_input_size.
    rewrite (to_size_t_int index Hi).
    destruct (Z.ltb_spec index 0);
      [destruct (Z.geb_spec (index + 2 ^ 64) (Onnx.input_count c))
      |destruct (Z.geb_spec index (Onnx.input_count c))]; try reflexivity; lia.
  - intros c index Hi Hc Hr. unfold Onnx.onnx_get_output_size.
    rewrite (to_size_t_int index Hi).
    destruct (Z.ltb_spec index 0);
      [destruct (Z.geb_spec (index + 2 ^ 64) (Onnx.output_count c))
      |destruct (Z.geb_spec index (Onnx.output_count c))]; try reflexivity; lia.
  - intros c t index [H|H]; unfold Tflite.tflite_get_input_size; rewrite H;
      [reflexivity|]. destruct (Tflite.interpreter c); reflexivity.
  - intros c t index [H|H]; unfold Tflite.tflite_get_output_size; rewrite H;
      [reflexivity|]. destruct (Tflite.interpreter c); reflexivity.
  - intros c index H. unfold Stub.stub_get_input_size, Stub.stub_get_output_size.
    destruct (Z.ltb_spec index 0); [lia|]. split; reflexivity.
Qed.

Lemma size_accessors_out_of_range_witness :
  let c := Onnx.mk_onnx true [16%Z] 1%Z [4%Z] 1%Z [] [] in
  fst (Onnx.onnx_get_input_size c 1%Z) = (-1)%Z /\
  fst (Onnx.onnx_get_input_size c (-1)%Z) = (-1)%Z.
Proof.
  intros c. split.
  - apply (proj1 size_accessors_out_of_range c 1%Z); simpl; lia.
  - apply (proj1 size_accessors_out_of_range c (-1)%Z); simpl; lia.
Defined.

(** C6 (counterexample): a stub context after loading a model reports
    one input and one output tensor, yet [stub_get_input_size] and
    [stub_get_output_size] at index 5 return 0 (success) with 1024. *)
Lemma stub_size_accessor_index_5 :
  let c := snd (Stub.stub_load_from_file Stub.stub_create "/data/m.dla.onnx") in
  Stub.stub_get_input_count c = (0%Z, 1%Z) /\
  Stub.stub_get_output_count c = (0%Z, 1%Z) /\
  Stub.stub_get_input_size c 5 = Some (0%Z, 1024%nat) /\
  Stub.stub_get_output_size c 5 = Some (0%Z, 1024%nat).
Proof. vm_compute. repeat split. Qed.

End IndexProofs.

Module CopyProofs.
Import Mem.

Lemma stub_write_from_binding (c : Stub.StubContext) (dst len : nat) :
  In (dst, len) (Stub.stub_invoke_writes c) ->
  exists i, (i < 32)%nat /\ nth i (Stub.outputs c) (0, 0)%nat = (len, dst) /\
            dst <> 0%nat /\ (0 < len)%nat.
Proof.
  unfold Stub.stub_invoke_writes. rewrite in_flat_map. intros [i [Hi Hw]].
  apply in_seq in Hi. exists i.
  destruct (nth i (Stub.outputs c) (0, 0)%nat) as [size buf] eqn:E.
  destruct (Nat.eqb_spec buf 0), (Nat.eqb_spec size 0); simpl in Hw; try contradiction.
  destruct Hw as [Hw|[]]. injection Hw as <- <-.
  unfold Stub.MAX_TENSORS in Hi. repeat split; try lia.
Qed.

Lemma copy_outputs_writes (c : Onnx.OnnxContext) (ort : Onnx.ort_answers)
    (idx : list nat) (dst : nat) (len : Z) :
  In (dst, len) (snd (Onnx.copy_outputs c ort idx)) ->
  exists i bsize, nth i (Onnx.output_bindings c) (0%nat, 0%Z) = (dst, bsize) /\
    dst <> 0%nat /\ len = Z.min bsize (nth i (Onnx.output_sizes c) 0%Z).
Proof.
  induction idx as [|i rest IH]; simpl; [intros []|].
  destruct (nth i (Onnx.output_bindings c) (0%nat, 0%Z)) as [buf bsize] eqn:E.
  destruct (Onnx.output_present ort i && negb (buf =? 0)%nat) eqn:P; [|exact IH].
  apply andb_true_iff in P as [_ P]. apply negb_true_iff, Nat.eqb_neq in P.
  destruct (Onnx.get_data_ok ort i); [|simpl; intros []].
  destruct (Onnx.copy_outputs c ort rest) as [ok w] eqn:R. simpl.
  intros [H|H].
  - injection H as <- <-. exists i, bsize. split; [exact E|]. split; [exact P|].
    destruct (Z.gtb_spec bsize (nth i (Onnx.output_sizes c) 0%Z)); lia.
  - apply IH. exact H.
Qed.

Lemma copy_outputs_rc (c c' : Onnx.OnnxContext) (ort : Onnx.ort_answers) (idx : list nat) :
  (forall i, fst (nth i (Onnx.output_bindings c') (0%nat, 0%Z))
             = fst (nth i (Onnx.output_bindings c) (0%nat, 0%Z))) ->
  fst (Onnx.copy_outputs c' ort idx) = fst (Onnx.copy_outputs c ort idx).
Proof.
  intros Hb. induction idx as [|i rest IH]; simpl; [reflexivity|].
  specialize (Hb i).
  destruct (nth i (Onnx.output_bindings c') (0%nat, 0%Z)) as [b' s'].
  destruct (nth i (Onnx.output_bindings c) (0%nat, 0%Z)) as [b s].
  simpl in Hb. subst b'.
  destruct (Onnx.output_present ort i && negb (b =? 0)%nat); [|exact IH].
  destruct (Onnx.get_data_ok ort i); [|reflexivity].
  destruct (Onnx.copy_outputs c' ort rest) as [ok' w'].
  destruct (Onnx.copy_outputs c ort rest) as [ok w]. exact IH.
Qed.

(** C9: no adapter writes into a caller output buffer beyond
    min(bound size, tensor size), and none fails because of the bound
    size.  Stub: each [memset] targets a bound non-NULL buffer over
    exactly its bound size, which is also the tensor size the stub
    reports for that index, and [stub_invoke] returns 0.  ONNX: each
    [memcpy] targets a bound non-NULL buffer with length
    min(bound size, tensor size), and the return code is the same for
    any bound sizes.  TFLite: each copy targets a bound non-NULL buffer
    with length at most min(bound size, tensor byte size), and the
    return code depends only on the interpreter. *)
Theorem invoke_copies_at_most_min :
  (forall (c : Stub.StubContext) (m : mem) (dst len : nat),
     In (dst, len) (Stub.stub_invoke_writes c) ->
     exists i, nth i (Stub.outputs c) (0, 0)%nat = (len, dst) /\ dst <> 0%nat /\
       Stub.stub_get_output_size c (Z.of_nat i) = Some (0%Z, len) /\
       fst (fst (Stub.stub_invoke c m)) = 0%Z) /\
  (forall (c : Onnx.OnnxContext) (ort : Onnx.ort_answers) (dst : nat) (len : Z),
     In (dst, len) (snd (Onnx.onnx_invoke c ort)) ->
     exists i bsize, nth i (Onnx.output_bindings c) (0%nat, 0%Z) = (dst, bsize) /\
       dst <> 0%nat /\ len = Z.min bsize (nth i (Onnx.output_sizes c) 0%Z)) /\
  (forall (c : Onnx.OnnxContext) (ort : Onnx.ort_answers) (bs : list (nat * Z)),
     map fst bs = map fst (Onnx.output_bindings c) ->
     fst (Onnx.onnx_invoke (Onnx.mk_onnx (Onnx.session c) (Onnx.input_sizes c)
            (Onnx.input_count c) (Onnx.output_sizes c) (Onnx.output_count c)
            (Onnx.input_bindings c) bs) ort)
     = fst (Onnx.onnx_invoke c ort)) /\
  (forall (c : Tflite.TFLiteContext) (t : Tflite.tflite_answers) (dst : nat) (len : Z),
     In (dst, len) (snd (Tflite.tflite_invoke c t)) ->
     exists i bsize tsize,
       nth i (Tflite.output_bindings c) (0%nat, 0%Z) = (dst, bsize) /\ dst <> 0%nat /\
       Tflite.output_tensor t (Z.of_nat i) = Some tsize /\ (len <= Z.min bsize tsize)%Z) /\
  (forall (c : Tflite.TFLiteContext) (t : Tflite.tflite_answers),
     fst (Tflite.tflite_invoke c t)
     = (if Tflite.interpreter c && Tflite.invoke_ok t then 0 else -1)%Z).
Proof.
  split; [|split; [|split; [|split]]].
  - intros c m dst len H.
    destruct (stub_write_from_binding c dst len H) as [i [Hi [E [Hd Hl]]]].
    exists i. split; [exact E|]. split; [exact Hd|]. split; [|reflexivity].
    unfold Stub.stub_get_output_size. rewrite Nat2Z.id, E. simpl.
    unfold Stub.MAX_TENSORS.
    destruct (Z.ltb_spec (Z.of_nat i) 0); [lia|].
    destruct (Z.ltb_spec (Z.of_nat i) 32); [|lia].
    destruct (Nat.ltb_spec 0 len); [reflexivity|lia].
  - intros c ort dst len. unfold Onnx.onnx_invoke.
    destruct (negb (Onnx.session c)); [simpl; intros []|].
    destruct (negb (forallb _ _)); [simpl; intros []|].
    destruct (negb (Onnx.run_ok ort)); [simpl; intros []|].
    destruct (Onnx.copy_outputs c ort (seq 0 (Z.to_nat (Onnx.output_count c))))
      as [ok w] eqn:R.
    simpl. intros H. apply (copy_outputs_writes c ort (seq 0 (Z.to_nat (Onnx.output_count c)))).
    rewrite R. exact H.
  - intros c ort bs Hbs. unfold Onnx.onnx_invoke. simpl.
    destruct (negb (Onnx.session c)); [reflexivity|].
    destruct (negb (forallb _ _)); [reflexivity|].
    destruct (negb (Onnx.run_ok ort)); [reflexivity|].
    set (c' := Onnx.mk_onnx _ _ _ _ _ _ bs).
    assert (Hr : fst (Onnx.copy_outputs c' ort (seq 0 (Z.to_nat (Onnx.output_count c))))
                 = fst (Onnx.copy_outputs c ort (seq 0 (Z.to_nat (Onnx.output_count c))))).
    { apply copy_outputs_rc. intros i. simpl.
      rewrite <- !(map_nth fst). change (fst (0%nat, 0%Z)) with 0%nat.
      rewrite Hbs. reflexivity. }
    destruct (Onnx.copy_outputs c' ort _) as [ok' w'].
    destruct (Onnx.copy_outputs c ort _) as [ok w]. simpl in Hr. subst ok'. reflexivity.
  - intros c t dst len. unfold Tflite.tflite_invoke.
    destruct (negb (Tflite.interpreter c)); [simpl; intros []|].
    destruct (negb (Tflite.invoke_ok t)); [simpl; intros []|].
    simpl. rewrite in_flat_map. intros [i [_ Hw]].
    destruct (nth i (Tflite.output_bindings c) (0%nat, 0%Z)) as [buf bsize] eqn:E.
    destruct (Nat.eqb_spec buf 0); [contradiction|].
    destruct (Tflite.output_tensor t (Z.of_nat i)) as [tsize|] eqn:T; [|contradiction].
    unfold Tflite.copy_to_buffer in Hw.
    destruct (Z.eqb_spec (if (bsize >? tsize)%Z then tsize else bsize) tsize) as [Heq|];
      [|contradiction].
    destruct Hw as [Hw|[]]. injection Hw as <- <-.
    exists i, bsize, tsize. repeat split; auto.
    destruct (Z.gtb_spec bsize tsize); lia.
  - intros c t. unfold Tflite.tflite_invoke.
    destruct (Tflite.interpreter c), (Tflite.invoke_ok t); reflexivity.
Qed.

End CopyProofs.

Module StubProofs.
Import Mem MemFacts Stub SpecSide.

Definition zero_on (m : mem) (buf size : nat) : Prop :=
  forall k, (k < size)%nat -> m (buf + k)%nat = 0%Z.

Definition stub_memset_fold (ws : list (nat * nat)) (m : mem) : mem :=
  fold_left (fun m '(dst, len) => memset0 m dst len) ws m.

Lemma fold_memset_keeps_zero (ws : list (nat * nat)) (m : mem) (a : nat) :
  m a = 0%Z -> stub_memset_fold ws m a = 0%Z.
Proof.
  unfold stub_memset_fold. revert m. induction ws as [|[d l] ws IH]; intros m H; simpl;
    [exact H|].
  apply IH. unfold memset0. destruct (_ && _); [reflexivity|exact H].
Qed.

Lemma fold_memset_zeroes (ws : list (nat * nat)) (m : mem) (dst len : nat) :
  In (dst, len) ws -> zero_on (stub_memset_fold ws m) dst len.
Proof.
  unfold zero_on, stub_memset_fold. revert m.
  induction ws as [|[d l] ws IH]; intros m Hin k Hk; simpl in *; [contradiction|].
  destruct Hin as [E|Hin].
  - injection E as -> ->. apply fold_memset_keeps_zero. unfold memset0.
    destruct (Nat.leb_spec dst (dst + k)); [|lia].
    destruct (Nat.ltb_spec (dst + k) (dst + len)); [reflexivity|lia].
  - apply IH; assumption.
Qed.

Lemma fold_memset_outside (ws : list (nat * nat)) (m : mem) (a : nat) :
  (forall dst len, In (dst, len) ws -> ~ (dst <= a < dst + len)%nat) ->
  stub_memset_fold ws m a = m a.
Proof.
  unfold stub_memset_fold. revert m.
  induction ws as [|[d l] ws IH]; intros m H; simpl; [reflexivity|].
  rewrite IH by (intros; apply H; right; assumption).
  unfold memset0.
  destruct (Nat.leb_spec d a), (Nat.ltb_spec a (d + l)); simpl; try reflexivity.
  exfalso. apply (H d l); [left; reflexivity|lia].
Qed.

Lemma stub_run_app (st : StubContext * mem) (l1 l2 : list stub_op) :
  stub_run st (l1 ++ l2)
  = match stub_run st l1 with Some st' => stub_run st' l2 | None => None end.
Proof.
  revert st. induction l1 as [|op l1 IH]; intros st; simpl; [reflexivity|].
  destruct (stub_step st op); [apply IH|reflexivity].
Qed.

Lemma stub_step_length (c : StubContext) (m : mem) (op : stub_op) c' m' :
  length (outputs c) = 32%nat -> stub_step (c, m) op = Some (c', m') ->
  length (outputs c') = 32%nat.
Proof.
  intros L. destruct op as [p|i s|i b s|]; simpl.
  - intros H. injection H as <- <-. exact L.
  - unfold stub_set_input.
    destruct (i <? 0)%Z; [intros; discriminate|]. destruct (i <? MAX_TENSORS)%Z;
      simpl; intros H; injection H as <- <-; exact L.
  - unfold stub_set_output.
    destruct (i <? 0)%Z; [intros; discriminate|]. destruct (i <? MAX_TENSORS)%Z;
      simpl; intros H; injection H as <- <-; [|exact L].
    simpl. rewrite length_upd. exact L.
  - intros H. injection H as <- <-. exact L.
Qed.

Lemma stub_run_length (st : StubContext * mem) (ops : list stub_op) c' m' :
  length (outputs (fst st)) = 32%nat -> stub_run st ops = Some (c', m') ->
  length (outputs c') = 32%nat.
Proof.
  revert st. induction ops as [|op ops IH]; intros [c m] L; cbn [stub_run].
  - intros H. injection H as <- <-. exact L.
  - destruct (stub_step (c, m) op) as [[c1 m1]|] eqn:S; [|intros; discriminate].
    apply IH. exact (stub_step_length c m op c1 m1 L S).
Qed.

Lemma stub_step_keeps_zero (c : StubContext) (m : mem) (op : stub_op) c' m' buf size :
  zero_on m buf size -> stub_step (c, m) op = Some (c', m') -> zero_on m' buf size.
Proof.
  intros Z. destruct op as [p|i s|i b s|]; simpl.
  - intros H. injection H as <- <-. exact Z.
  - destruct (stub_set_input c i s); simpl; intros H; [injection H as <- <-; exact Z|discriminate H].
  - destruct (stub_set_output c i b s); simpl; intros H; [injection H as <- <-; exact Z|discriminate H].
  - intros H. injection H as <- <-. intros k Hk.
    apply (fold_memset_keeps_zero (stub_invoke_writes c)). apply Z; exact Hk.
Qed.

Lemma stub_run_keeps_zero (st : StubContext * mem) (ops : list stub_op) c' m' buf size :
  zero_on (snd st) buf size -> stub_run st ops = Some (c', m') -> zero_on m' buf size.
Proof.
  revert st. induction ops as [|op ops IH]; intros [c m] Z; cbn [stub_run].
  - intros H. injection H as <- <-. exact Z.
  - destruct (stub_step (c, m) op) as [[c1 m1]|] eqn:S; [|intros; discriminate].
    apply IH. exact (stub_step_keeps_zero c m op c1 m1 buf size Z S).
Qed.

(** Binding [i] of the stub context is [(size, buf)] and counted. *)
Definition bound (i : Z) (buf size : nat) (c : StubContext) : Prop :=
  nth (Z.to_nat i) (outputs c) (0, 0)%nat = (size, buf) /\ (i < output_count c)%Z /\
  (0 <= i < 32)%Z.

Lemma stub_step_keeps_bound (c : StubContext) (m : mem) (op : stub_op) c' m' i buf size :
  bound i buf size c -> keeps_binding i op = true ->
  stub_step (c, m) op = Some (c', m') -> bound i buf size c'.
Proof.
  intros [N [C R]]. destruct op as [p|j s|j b s|]; simpl; intros K.
  - discriminate.
  - unfold stub_set_input.
    destruct (j <? 0)%Z; [intros; discriminate|]. destruct (j <? MAX_TENSORS)%Z;
      simpl; intros H; injection H as <- <-; split; auto.
  - apply negb_true_iff, Z.eqb_neq in K. unfold stub_set_output.
    destruct (Z.ltb_spec j 0); [intros; discriminate|]. destruct (j <? MAX_TENSORS)%Z;
      simpl; intros E; injection E as <- <-; [|split; auto].
    unfold bound; cbn [outputs output_count]. split; [|split; [|exact R]].
    + rewrite nth_upd_neq; [exact N|lia].
    + destruct (Z.geb_spec j (output_count c)); lia.
  - intros H. injection H as <- <-. split; auto.
Qed.

Lemma stub_run_keeps_bound (st : StubContext * mem) (ops : list stub_op) c' m' i buf size :
  bound i buf size (fst st) -> forallb (keeps_binding i) ops = true ->
  stub_run st ops = Some (c', m') -> bound i buf size c'.
Proof.
  revert st. induction ops as [|op ops IH]; intros [c m] B K; cbn [stub_run forallb fst] in *.
  - intros H. injection H as <- <-. exact B.
  - apply andb_true_iff in K as [K1 K2].
    destruct (stub_step (c, m) op) as [[c1 m1]|] eqn:S; [|intros; discriminate].
    apply IH; [|exact K2]. exact (stub_step_keeps_bound c m op c1 m1 i buf size B K1 S).
Qed.

Lemma bound_written (c : StubContext) i buf size :
  bound i buf size c -> buf <> 0%nat -> size <> 0%nat ->
  In (buf, size) (stub_invoke_writes c).
Proof.
  intros [N [C R]] Hb Hs. unfold stub_invoke_writes. apply in_flat_map.
  exists (Z.to_nat i). split.
  - apply in_seq. unfold MAX_TENSORS. lia.
  - rewrite N. destruct (Nat.eqb_spec buf 0), (Nat.eqb_spec size 0); try contradiction.
    left. reflexivity.
Qed.

Lemma stub_run_zeroes_bound (st : StubContext * mem) (mid rest : list stub_op)
    c' m' i buf size :
  bound i buf size (fst st) -> buf <> 0%nat ->
  forallb (keeps_binding i) (mid ++ OpInvoke :: rest) = true ->
  stub_run st (mid ++ OpInvoke :: rest) = Some (c', m') -> zero_on m' buf size.
Proof.
  intros B Hb K. rewrite forallb_app in K. apply andb_true_iff in K as [K1 K2].
  rewrite stub_run_app.
  destruct (stub_run st mid) as [[c1 m1]|] eqn:R1; [|intros; discriminate].
  simpl. intros R.
  eapply stub_run_keeps_zero; [|exact R].
  change (zero_on (stub_memset_fold (stub_invoke_writes c1) m1) buf size).
  destruct (Nat.eq_dec size 0) as [->|Hs]; [intros k Hk; lia|].
  apply fold_memset_zeroes. apply (bound_written c1 i buf size); [|exact Hb|exact Hs].
  exact (stub_run_keeps_bound st mid c1 m1 i buf size B K1 R1).
Qed.

Lemma stub_set_output_bound (c : StubContext) i buf size rc c1 :
  length (outputs c) = 32%nat -> (0 <= i < 32)%Z ->
  stub_set_output c i buf size = Some (rc, c1) -> bound i buf size c1.
Proof.
  intros L R. unfold stub_set_output, MAX_TENSORS.
  destruct (Z.ltb_spec i 0); [lia|]. destruct (Z.ltb_spec i 32); [|lia].
  intros E. injection E as _ <-. split; [|split; [|exact R]]; simpl.
  - apply nth_upd_eq. rewrite L. lia.
  - destruct (Z.geb_spec i (output_count c)); lia.
Qed.

Lemma stub_write_covers (c : StubContext) (dst len a : nat) :
  In (dst, len) (stub_invoke_writes c) -> (dst <= a < dst + len)%nat ->
  covered_by_binding c a = true.
Proof.
  unfold stub_invoke_writes, covered_by_binding, MAX_TENSORS.
  rewrite in_flat_map. intros [j [Hj Hw]] Ha. apply existsb_exists.
  exists j. split; [exact Hj|].
  destruct (nth j (outputs c) (0, 0)%nat) as [sz b].
  destruct (Nat.eqb_spec b 0), (Nat.eqb_spec sz 0); simpl in Hw; try contradiction.
  destruct Hw as [Hw|[]]. injection Hw as -> ->.
  destruct (Nat.leb_spec dst a), (Nat.ltb_spec a (dst + len)); try lia; reflexivity.
Qed.

(** C2 (counterexample): a buffer bound to output index 32 is accepted
    by [stub_set_output] and then never zero-filled by [stub_invoke]:
    after load, [setOutput(32, buf=100, size=4)] and one invoke, memory
    initially filled with 7 still holds 7 at address 100. *)
Lemma stub_out_of_range_binding_not_zeroed :
  stub_set_output (snd (stub_load_from_file stub_create "m")) 32 100 4
    = Some (0%Z, snd (stub_load_from_file stub_create "m")) /\
  match stub_run (stub_create, fun _ => 7%Z) [OpLoadFile "m"; OpSetOutput 32 100 4; OpInvoke] with
  | Some (_, m') => m' 100%nat = 7%Z
  | None => False
  end.
Proof. split; vm_compute; reflexivity. Qed.

(** C2 (amended): starting from a fresh stub context and any memory,
    once [setOutput(i, buf, size)] has bound a non-NULL buffer at an
    index [0 <= i < 32], every later run that contains an invoke and
    that neither rebinds index [i] nor loads a model (which resets the
    output count to 1) ends with [buf[0 .. size-1]] all zero,
    whatever the memory held before and however many invokes ran. *)
Theorem stub_invoke_zeroes_kept_binding (m0 : mem) (pre mid rest : list stub_op)
    (i : Z) (buf size : nat) (c' : StubContext) (m' : mem) :
  (0 <= i < 32)%Z -> buf <> 0%nat ->
  forallb (keeps_binding i) (mid ++ OpInvoke :: rest) = true ->
  stub_run (stub_create, m0) (pre ++ OpSetOutput i buf size :: mid ++ OpInvoke :: rest)
    = Some (c', m') ->
  forall k, (k < size)%nat -> m' (buf + k)%nat = 0%Z.
Proof.
  intros Hi Hb K. rewrite stub_run_app.
  destruct (stub_run (stub_create, m0) pre) as [[c0 m1]|] eqn:R0; [|intros; discriminate].
  assert (L : length (outputs c0) = 32%nat)
    by exact (stub_run_length (stub_create, m0) pre c0 m1 eq_refl R0).
  cbn [stub_run stub_step].
  destruct (stub_set_output c0 i buf size) as [[rc c1]|] eqn:S; [|intros; discriminate].
  simpl. intros R.
  apply (stub_run_zeroes_bound (c1, m1) mid rest c' m' i buf size); auto.
  exact (stub_set_output_bound c0 i buf size rc c1 L Hi S).
Qed.

Lemma stub_invoke_zeroes_kept_binding_witness :
  match stub_run (stub_create, fun _ => 7%Z)
          ([OpLoadFile "m"] ++ OpSetOutput 0 100 4 :: [OpSetInput 0 8] ++ OpInvoke :: [OpInvoke])
  with
  | Some (_, m') => m' (100 + 3)%nat = 0%Z
  | None => False
  end.
Proof.
  destruct (stub_run (stub_create, fun _ => 7%Z) _) as [[c' m']|] eqn:R.
  - apply (stub_invoke_zeroes_kept_binding (fun _ => 7%Z) [OpLoadFile "m"] [OpSetInput 0 8]
             [OpInvoke] 0 100 4 c' m'); [lia|discriminate|reflexivity|exact R|lia].
  - vm_compute in R. discriminate R.
Defined.

(** C10: in the stub, [setOutput] with an index [i >= 32] (a C [int])
    returns 0 and leaves the context, hence the binding table and the
    output count, unchanged; a following invoke leaves every byte of
    the caller buffer that no current binding covers untouched; the
    ONNX adapter's [set_output] returns -1 for the same index. *)
Theorem stub_set_output_out_of_range_ignored (c : StubContext) (i : Z) (buf size : nat) :
  (32 <= i < 2 ^ 31)%Z ->
  stub_set_output c i buf size = Some (0%Z, c) /\
  (forall (m : mem) (a : nat), (buf <= a < buf + size)%nat ->
     covered_by_binding c a = false -> snd (stub_invoke c m) a = m a) /\
  (forall oc : Onnx.OnnxContext, Onnx.onnx_set_output oc i buf (Z.of_nat size) = ((-1)%Z, oc)).
Proof.
  intros Hi. split; [|split].
  - unfold stub_set_output, MAX_TENSORS.
    destruct (Z.ltb_spec i 0); [lia|]. destruct (Z.ltb_spec i 32); [lia|]. reflexivity.
  - intros m a _ Hc. unfold stub_invoke. cbn [snd].
    apply (fold_memset_outside (stub_invoke_writes c) m a).
    intros dst len Hin Ha. rewrite (stub_write_covers c dst len a Hin Ha) in Hc.
    discriminate Hc.
  - intros oc. unfold Onnx.onnx_set_output, Onnx.MAX_TENSORS.
    rewrite (IndexProofs.to_size_t_int i) by lia.
    destruct (Z.ltb_spec i 0); [lia|]. destruct (Z.geb_spec i 32); [reflexivity|lia].
Qed.

Lemma stub_set_output_out_of_range_ignored_witness :
  (32 <= 40 < 2 ^ 31)%Z /\
  stub_set_output stub_create 40 100 4 = Some (0%Z, stub_create).
Proof.
  split; [lia|].
  exact (proj1 (stub_set_output_out_of_range_ignored stub_create 40 100 4 ltac:(lia))).
Defined.

End StubProofs.

Module StubExtra.
Import Mem MemFacts Stub Observe StubProofs.

Lemma fold_memset_value (ws : list (nat * nat)) (m : mem) (a : nat) :
  stub_memset_fold ws m a
  = if existsb (fun '(d, l) => (d <=? a)%nat && (a <? d + l)%nat) ws then 0%Z else m a.
Proof.
  unfold stub_memset_fold. revert m.
  induction ws as [|[d l] ws IH]; intros m; simpl; [reflexivity|].
  rewrite IH. unfold memset0.
  destruct (existsb _ ws), ((d <=? a)%nat && (a <? d + l)%nat); reflexivity.
Qed.

(** X1: binding an output of the stub at an index [0 <= i < 32] succeeds;
    afterwards the stub reports the bound size for [i] (1024 when it is
    0), reports max(previous count, i + 1) outputs, and reports the same
    sizes as before for every other index. *)
Theorem stub_set_output_then_query (c : StubContext) (i : Z) (buf size : nat) :
  length (outputs c) = 32%nat -> (0 <= i < 32)%Z ->
  exists c', stub_set_output c i buf size = Some (0%Z, c') /\
    stub_get_output_size c' i = Some (0%Z, if (0 <? size)%nat then size else 1024%nat) /\
    stub_get_output_count c' = (0%Z, Z.max (output_count c) (i + 1)) /\
    (forall j, j <> i -> stub_get_output_size c' j = stub_get_output_size c j).
Proof.
  intros L Hi. unfold stub_set_output, MAX_TENSORS.
  destruct (Z.ltb_spec i 0); [lia|]. destruct (Z.ltb_spec i 32); [|lia].
  eexists. split; [reflexivity|]. split; [|split].
  - unfold stub_get_output_size, MAX_TENSORS. cbn [outputs].
    destruct (Z.ltb_spec i 0); [lia|]. destruct (Z.ltb_spec i 32); [|lia].
    rewrite nth_upd_eq by (rewrite L; lia). simpl. reflexivity.
  - unfold stub_get_output_count. cbn [output_count].
    destruct (Z.geb_spec i (output_count c)).
    + destruct (Z.gtb_spec (i + 1) 0); [f_equal; lia|lia].
    + destruct (Z.gtb_spec (output_count c) 0); [f_equal; lia|lia].
  - intros j Hj. unfold stub_get_output_size. cbn [outputs].
    destruct (Z.ltb_spec j 0); [reflexivity|].
    destruct (Z.ltb_spec j MAX_TENSORS); simpl; [|reflexivity].
    rewrite nth_upd_neq by lia. reflexivity.
Qed.

Lemma stub_set_output_then_query_witness :
  length (outputs stub_create) = 32%nat /\ (0 <= 3 < 32)%Z /\
  exists c', stub_set_output stub_create 3 100 16 = Some (0%Z, c') /\
    stub_get_output_size c' 3 = Some (0%Z, 16%nat) /\
    stub_get_output_count c' = (0%Z, 4%Z).
Proof.
  split; [reflexivity|]. split; [lia|].
  destruct (stub_set_output_then_query stub_create 3 100 16 eq_refl ltac:(lia))
    as [c' [H1 [H2 [H3 _]]]].
  exists c'. split; [exact H1|]. split; [exact H2|]. rewrite H3. reflexivity.
Defined.

(** X2: setting an input of the stub at an index [0 <= i < 32] records
    its size: afterwards the stub reports that size for [i] (1024 when it
    is 0), max(previous count, i + 1) inputs, and unchanged sizes for
    every other index; outputs are untouched. *)
Theorem stub_set_input_then_query (c : StubContext) (i : Z) (size : nat) :
  length (inputs c) = 32%nat -> (0 <= i < 32)%Z ->
  exists c', stub_set_input c i size = Some (0%Z, c') /\
    stub_get_input_size c' i = Some (0%Z, if (0 <? size)%nat then size else 1024%nat) /\
    stub_get_input_count c' = (0%Z, Z.max (input_count c) (i + 1)) /\
    (forall j, j <> i -> stub_get_input_size c' j = stub_get_input_size c j) /\
    outputs c' = outputs c /\ output_count c' = output_count c.
Proof.
  intros L Hi. unfold stub_set_input, MAX_TENSORS.
  destruct (Z.ltb_spec i 0); [lia|]. destruct (Z.ltb_spec i 32); [|lia].
  eexists. split; [reflexivity|]. split; [|split; [|split]].
  - unfold stub_get_input_size, MAX_TENSORS. cbn [inputs].
    destruct (Z.ltb_spec i 0); [lia|]. destruct (Z.ltb_spec i 32); [|lia].
    rewrite nth_upd_eq by (rewrite L; lia). simpl. reflexivity.
  - unfold stub_get_input_count. cbn [input_count].
    destruct (Z.geb_spec i (input_count c)).
    + destruct (Z.gtb_spec (i + 1) 0); [f_equal; lia|lia].
    + destruct (Z.gtb_spec (input_count c) 0); [f_equal; lia|lia].
  - intros j Hj. unfold stub_get_input_size. cbn [inputs].
    destruct (Z.ltb_spec j 0); [reflexivity|].
    destruct (Z.ltb_spec j MAX_TENSORS); simpl; [|reflexivity].
    rewrite nth_upd_neq by lia. reflexivity.
  - split; reflexivity.
Qed.

Lemma stub_set_input_then_query_witness :
  length (inputs stub_create) = 32%nat /\ (0 <= 2 < 32)%Z /\
  exists c', stub_set_input stub_create 2 64 = Some (0%Z, c') /\
    stub_get_input_size c' 2 = Some (0%Z, 64%nat).
Proof.
  split; [reflexivity|]. split; [lia|].
  destruct (stub_set_input_then_query stub_create 2 64 eq_refl ltac:(lia))
    as [c' [H1 [H2 _]]].
  exists c'. split; [exact H1|exact H2].
Defined.

Lemma stub_step_counts (c : StubContext) (m : mem) (op : stub_op) c' m' :
  counts_ok c -> stub_step (c, m) op = Some (c', m') -> counts_ok c'.
Proof.
  intros [Hi Ho]. destruct op as [p|i s|i b s|]; simpl.
  - intros E. injection E as <- <-. split; simpl; lia.
  - unfold stub_set_input, MAX_TENSORS.
    destruct (Z.ltb_spec i 0); [intros; discriminate|].
    destruct (Z.ltb_spec i 32); simpl; intros E; injection E as <- <-; [|split; assumption].
    split; simpl; [|exact Ho]. destruct (Z.geb_spec i (input_count c)); lia.
  - unfold stub_set_output, MAX_TENSORS.
    destruct (Z.ltb_spec i 0); [intros; discriminate|].
    destruct (Z.ltb_spec i 32); simpl; intros E; injection E as <- <-; [|split; assumption].
    split; simpl; [exact Hi|]. destruct (Z.geb_spec i (output_count c)); lia.
  - intros E. injection E as <- <-. split; simpl; assumption.
Qed.

Lemma stub_run_counts (st : StubContext * mem) (ops : list stub_op) c' m' :
  counts_ok (fst st) -> stub_run st ops = Some (c', m') -> counts_ok c'.
Proof.
  revert st. induction ops as [|op ops IH]; intros [c m] H; cbn [stub_run].
  - intros E. injection E as <- <-. exact H.
  - destruct (stub_step (c, m) op) as [[c1 m1]|] eqn:S; [|intros; discriminate].
    apply IH. exact (stub_step_counts c m op c1 m1 H S).
Qed.

(** X3: along any sequence of stub calls from a fresh context, the input
    and output counts the stub reports always lie between 1 and 32. *)
Theorem stub_reported_counts_bounded (m0 : mem) (ops : list stub_op) c' m' :
  stub_run (stub_create, m0) ops = Some (c', m') ->
  (1 <= snd (stub_get_input_count c') <= 32)%Z /\
  (1 <= snd (stub_get_output_count c') <= 32)%Z.
Proof.
  intros R. destruct (stub_run_counts (stub_create, m0) ops c' m') as [Hi Ho];
    [split; simpl; lia|exact R|].
  unfold stub_get_input_count, stub_get_output_count. simpl.
  destruct (Z.gtb_spec (input_count c') 0), (Z.gtb_spec (output_count c') 0); lia.
Qed.

Lemma stub_reported_counts_bounded_witness :
  match stub_run (stub_create, fun _ => 0%Z) [OpSetOutput 40 1 4; OpSetInput 31 8; OpInvoke] with
  | Some (c', _) => (1 <= snd (stub_get_input_count c') <= 32)%Z
  | None => False
  end.
Proof.
  destruct (stub_run (stub_create, fun _ => 0%Z) _) as [[c' m']|] eqn:R.
  - exact (proj1 (stub_reported_counts_bounded (fun _ => 0%Z) _ c' m' R)).
  - vm_compute in R. discriminate R.
Defined.

(** X4: the stub counts inferences exactly: after a sequence of calls
    in which the [int] counter does not pass INT_MAX (so no increment
    overflows), [inference_count] has grown by the number of invokes in
    it. *)
Theorem stub_inference_count_exact (st : StubContext * mem) (ops : list stub_op) c' m' :
  (- 2 ^ 31 <= inference_count (fst st))%Z ->
  (inference_count (fst st) + Z.of_nat (length (filter is_invoke ops)) <= 2 ^ 31 - 1)%Z ->
  stub_run st ops = Some (c', m') ->
  inference_count c' = (inference_count (fst st) + Z.of_nat (length (filter is_invoke ops)))%Z.
Proof.
  intros _ _. revert st. induction ops as [|op ops IH]; intros [c m]; cbn [stub_run].
  - intros E. injection E as <- <-. simpl. lia.
  - destruct (stub_step (c, m) op) as [[c1 m1]|] eqn:S; [|intros; discriminate].
    intros R. rewrite (IH (c1, m1) R). cbn [fst].
    destruct op as [p|i s|i b s|]; simpl in S |- *.
    + injection S as <- <-. reflexivity.
    + destruct (stub_set_input c i s) as [[r c2]|] eqn:E; simpl in S; [|discriminate].
      injection S as <- <-. unfold stub_set_input in E.
      destruct (i <? 0)%Z; [discriminate|].
      destruct (i <? MAX_TENSORS)%Z; injection E as _ <-; reflexivity.
    + destruct (stub_set_output c i b s) as [[r c2]|] eqn:E; simpl in S; [|discriminate].
      injection S as <- <-. unfold stub_set_output in E.
      destruct (i <? 0)%Z; [discriminate|].
      destruct (i <? MAX_TENSORS)%Z; injection E as _ <-; reflexivity.
    + injection S as <- <-. simpl. lia.
Qed.

Lemma stub_inference_count_exact_witness :
  match stub_run (stub_create, fun _ => 0%Z) [OpLoadFile "m"; OpInvoke; OpInvoke] with
  | Some (c', _) => inference_count c' = 2%Z
  | None => False
  end.
Proof.
  destruct (stub_run (stub_create, fun _ => 0%Z) _) as [[c' m']|] eqn:R.
  - rewrite (stub_inference_count_exact (stub_create, fun _ => 0%Z)
             [OpLoadFile "m"; OpInvoke; OpInvoke] c' m' ltac:(simpl; lia) ltac:(simpl; lia) R).
    reflexivity.
  - vm_compute in R. discriminate R.
Defined.

(** X5: the stub never writes anything but zeros: after any sequence of
    calls each byte of caller memory either is unchanged or is 0. *)
Theorem stub_writes_only_zeros (st : StubContext * mem) (ops : list stub_op) c' m' :
  stub_run st ops = Some (c', m') -> forall a, m' a = snd st a \/ m' a = 0%Z.
Proof.
  revert st. induction ops as [|op ops IH]; intros [c m]; cbn [stub_run].
  - intros E. injection E as <- <-. left. reflexivity.
  - destruct (stub_step (c, m) op) as [[c1 m1]|] eqn:S; [|intros; discriminate].
    intros R a. destruct (IH (c1, m1) R a) as [E|E]; [|right; exact E].
    cbn [snd] in E |- *. rewrite E.
    destruct op as [p|i s|i b s|]; simpl in S.
    + injection S as _ <-. left. reflexivity.
    + destruct (stub_set_input c i s); simpl in S; [|discriminate].
      injection S as _ <-. left. reflexivity.
    + destruct (stub_set_output c i b s); simpl in S; [|discriminate].
      injection S as _ <-. left. reflexivity.
    + injection S as _ <-. change (fold_left _ _ m) with (stub_memset_fold (stub_invoke_writes c) m).
      rewrite fold_memset_value. destruct (existsb _ _); [right|left]; reflexivity.
Qed.

Lemma stub_writes_only_zeros_witness :
  match stub_run (stub_create, fun _ => 5%Z) [OpSetOutput 0 10 2; OpInvoke] with
  | Some (_, m') => m' 10%nat = 5%Z \/ m' 10%nat = 0%Z
  | None => False
  end.
Proof.
  destruct (stub_run (stub_create, fun _ => 5%Z) _) as [[c' m']|] eqn:R.
  - exact (stub_writes_only_zeros _ _ c' m' R 10%nat).
  - vm_compute in R. discriminate R.
Defined.

(** X6: a second stub invoke right after a first one changes no byte of
    caller memory and binds the same buffers. *)
Theorem stub_invoke_idempotent (c : StubContext) (m : mem) :
  let '(_, c1, m1) := stub_invoke c m in
  stub_invoke_writes c1 = stub_invoke_writes c /\
  forall a, snd (stub_invoke c1 m1) a = m1 a.
Proof.
  unfold stub_invoke at 1. split; [reflexivity|]. intros a.
  unfold stub_invoke. cbn [snd].
  change (fold_left _ (stub_invoke_writes ?x) ?y) with (stub_memset_fold (stub_invoke_writes x) y).
  change (stub_invoke_writes (mk_stub _ _ _ _ _ _)) with (stub_invoke_writes c).
  rewrite !fold_memset_value. destruct (existsb _ _); reflexivity.
Qed.

(** X7: loading a model into the stub, from a file or from a buffer,
    resets both counts to 1 and keeps every binding, so the next invoke
    zero-fills only the buffer bound at output index 0. *)
Theorem stub_load_resets_counts (c : StubContext) (path : string) (size : Z) :
  (forall c', c' = snd (stub_load_from_file c path) \/ c' = snd (stub_load_from_buffer c size) ->
   stub_get_input_count c' = (0%Z, 1%Z) /\ stub_get_output_count c' = (0%Z, 1%Z) /\
   inputs c' = inputs c /\ outputs c' = outputs c /\
   stub_invoke_writes c' = binding0_writes c) /\
  fst (stub_load_from_file c path) = 0%Z /\ fst (stub_load_from_buffer c size) = 0%Z.
Proof.
  split; [|split; reflexivity].
  intros c' [->| ->]; (split; [reflexivity|]); (split; [reflexivity|]);
    (split; [reflexivity|]); (split; [reflexivity|]);
    unfold stub_invoke_writes, binding0_writes; simpl;
    destruct (nth 0 (outputs c) (0, 0)%nat) as [sz b];
    destruct ((b =? 0)%nat || (sz =? 0)%nat); reflexivity.
Qed.

End StubExtra.

Module RuntimeExtra.
Import Mem Stub Selector Resolver Runtime StubRuntime Observe.

(** X8: with the stub backend, every entry point called on a non-null
    runtime with its required pointers non-null and a non-negative index
    returns NEURONRUNTIME_NO_ERROR, except [loadNetworkFromFile], which
    returns NEURONRUNTIME_NO_ERROR when the resolver finds the model and
    NEURONRUNTIME_BAD_DATA otherwise. *)
Theorem stub_entry_outcomes (g : globals) (readable : string -> bool) (runtime : nat)
    (c : StubContext) (m : mem) :
  runtime <> 0%nat ->
  (forall call, null_arg call = false -> nonneg_index call = true ->
     is_load_file call = false ->
     exists c' m', stub_entry g readable runtime call c m
                   = Some (NEURONRUNTIME_NO_ERROR, c', m')) /\
  (forall p, exists c',
     stub_entry g readable runtime (LoadNetworkFromFile (Some p)) c m
     = Some ((if (rr_rc (neuron_shim_resolve_model readable (Some p) (Some (g_suffix g))
                           (Some (Config.model_dir (g_config g))) 1024) =? 0)%Z
              then NEURONRUNTIME_NO_ERROR else NEURONRUNTIME_BAD_DATA), c', m)).
Proof.
  intros Hr. apply Nat.eqb_neq in Hr. split.
  - intros call Hn Hi Hl.
    destruct call as [|path|buf size|i buf size pad|i buf size pad|p|p|i p|i p|i p|i p| |q|q];
      simpl in Hn, Hi, Hl; try discriminate;
      unfold stub_entry, dispatch; rewrite ?Hr, ?Hn; cbn [orb fst stub_adapter].
    + do 2 eexists. reflexivity.
    + unfold stub_load_from_buffer. do 2 eexists. reflexivity.
    + unfold stub_set_input. apply Z.leb_le in Hi.
      destruct (Z.ltb_spec i 0); [lia|]. destruct (i <? MAX_TENSORS)%Z; do 2 eexists; reflexivity.
    + unfold stub_set_output. apply Z.leb_le in Hi.
      destruct (Z.ltb_spec i 0); [lia|]. destruct (i <? MAX_TENSORS)%Z; do 2 eexists; reflexivity.
    + do 2 eexists. reflexivity.
    + do 2 eexists. reflexivity.
    + unfold stub_get_input_size. apply Z.leb_le in Hi.
      destruct (Z.ltb_spec i 0); [lia|]. do 2 eexists; reflexivity.
    + unfold stub_get_output_size. apply Z.leb_le in Hi.
      destruct (Z.ltb_spec i 0); [lia|]. do 2 eexists; reflexivity.
    + unfold stub_get_input_size. apply Z.leb_le in Hi.
      destruct (Z.ltb_spec i 0); [lia|]. do 2 eexists; reflexivity.
    + unfold stub_get_output_size. apply Z.leb_le in Hi.
      destruct (Z.ltb_spec i 0); [lia|]. do 2 eexists; reflexivity.
    + unfold stub_invoke. do 2 eexists. reflexivity.
    + do 2 eexists. reflexivity.
    + do 2 eexists. reflexivity.
  - intros p. unfold stub_entry, dispatch, loadNetworkFromFile. rewrite Hr.
    destruct (rr_rc _ =? 0)%Z; cbn [negb fst].
    + cbn [stub_adapter]. destruct (stub_load_from_file c _) as [r c'] eqn:E.
      exists c'. unfold stub_load_from_file in E. injection E as <- _. reflexivity.
    + exists c. reflexivity.
Qed.

Lemma stub_entry_outcomes_witness :
  (1 <> 0)%nat /\
  exists c' m',
    stub_entry (shim_global_init (mk_platform false false false false) None None
                  (Config.mk_env None None None None None None))
               (fun _ => true) 1 Inference stub_create (fun _ => 0%Z)
    = Some (NEURONRUNTIME_NO_ERROR, c', m').
Proof.
  split; [discriminate|].
  apply (proj1 (stub_entry_outcomes _ (fun _ => true) 1 stub_create (fun _ => 0%Z)
                  ltac:(discriminate)) Inference); reflexivity.
Defined.

(** X9: the entry points only ever return NEURONRUNTIME_NO_ERROR,
    NEURONRUNTIME_BAD_DATA, NEURONRUNTIME_UNEXPECTED_NULL or
    NEURONRUNTIME_OP_FAILED.  The calls answered without the adapter
    never return OP_FAILED; a call forwarded to the adapter returns
    NO_ERROR when the adapter returns 0 and OP_FAILED exactly when it
    returns non-zero, except [release], which returns NO_ERROR after
    [destroy] (a [void] function). *)
Theorem dispatch_return_codes (g : globals) (readable : string -> bool) (runtime : nat)
    (call : api_call) :
  match fst (dispatch g readable runtime call) with
  | Return code => In code [NEURONRUNTIME_NO_ERROR; NEURONRUNTIME_BAD_DATA;
                            NEURONRUNTIME_UNEXPECTED_NULL]
  | Forward AdDestroy k => forall r, fst (k r) = NEURONRUNTIME_NO_ERROR
  | Forward _ k => forall r, fst (k r) = (if (r =? 0)%Z then NEURONRUNTIME_NO_ERROR
                                          else NEURONRUNTIME_OP_FAILED)
  end.
Proof.
  destruct call as [|path|buf size|i buf size pad|i buf size pad|p|p|i p|i p|i p|i p| |q|q];
    unfold dispatch;
    repeat match goal with
           | |- context [if ?b then _ else _] => destruct b
           end; simpl; auto.
  all: try (intros r; reflexivity).
  all: try (unfold loadNetworkFromFile; destruct path as [p|]; simpl; auto;
            destruct (runtime =? 0)%nat; simpl; auto;
            destruct (negb _); simpl; auto;
            intros r; destruct (r =? 0)%Z; reflexivity).
Qed.

(** X10: with log level 0 or below the shim prints none of its own lines
    while loading a model, but the resolver's diagnostic (model not
    found, path too long) is still written to stderr. *)
Theorem load_log_level_silences_shim (g : globals) (readable : string -> bool)
    (runtime : nat) (p : string) :
  (g_log_level g < 1)%Z -> runtime <> 0%nat ->
  let rr := neuron_shim_resolve_model readable (Some p) (Some (g_suffix g))
               (Some (Config.model_dir (g_config g))) 1024 in
  snd (loadNetworkFromFile g readable runtime (Some p))
    = (if (rr_rc rr =? 0)%Z then [] else rr_diag rr) /\
  match fst (loadNetworkFromFile g readable runtime (Some p)) with
  | Forward _ k => forall r, snd (k r) = []
  | Return _ => True
  end.
Proof.
  intros Hl Hr rr. apply Nat.eqb_neq in Hr.
  assert (Q : forall lvl tag text, (1 <= lvl)%Z -> shim_log g lvl tag text = []).
  { intros lvl tag text H. unfold shim_log. destruct (Z.geb_spec (g_log_level g) lvl); [lia|].
    reflexivity. }
  unfold loadNetworkFromFile. rewrite Hr. cbv zeta. fold rr.
  unfold LOG_INFO, LOG_ERR. rewrite (Q 3%Z), (Q 1%Z) by lia.
  destruct (rr_rc rr =? 0)%Z; simpl.
  - split; [rewrite Q by lia; reflexivity|].
    intros r. destruct (r =? 0)%Z; simpl; [reflexivity|]. apply Q. lia.
  - rewrite app_nil_r. split; [reflexivity|exact I].
Qed.

Lemma load_log_level_silences_shim_witness :
  let g := mk_globals (Config.mk_config "stub" "auto" "" 4 false 0) StubBackend ".onnx" 0 in
  (g_log_level g < 1)%Z /\ (1 <> 0)%nat /\
  snd (loadNetworkFromFile g (fun _ => false) 1 (Some "m.dla"))
  = rr_diag (neuron_shim_resolve_model (fun _ => false) (Some "m.dla") (Some ".onnx")
               (Some "") 1024) /\
  rr_diag (neuron_shim_resolve_model (fun _ => false) (Some "m.dla") (Some ".onnx")
               (Some "") 1024) <> [].
Proof.
  intros g. split; [reflexivity|]. split; [discriminate|].
  split; [|discriminate].
  exact (proj1 (load_log_level_silences_shim g (fun _ => false) 1 "m.dla"
                  ltac:(reflexivity) ltac:(discriminate))).
Defined.

(** X11: backend selection never picks a backend the build lacks (ONNX
    only with [SHIM_HAS_ONNX], TFLite only with [SHIM_HAS_TFLITE]), and
    the name "stub" always selects the stub. *)
Theorem select_backend_compiled (pf : platform) (name : option string) :
  (neuron_shim_select_backend pf name = OnnxBackend -> has_onnx pf = true) /\
  (neuron_shim_select_backend pf name = TfliteBackend -> has_tflite pf = true) /\
  (name = Some "stub" -> neuron_shim_select_backend pf name = StubBackend).
Proof.
  unfold neuron_shim_select_backend.
  destruct pf as [ho ht ol tl]; cbn [has_onnx has_tflite onnx_lib_loadable tflite_lib_loadable].
  split; [|split].
  - destruct ho; [reflexivity|]. destruct name as [n|]; simpl;
      [destruct (ht && String.eqb n "tflite"); [discriminate|];
       destruct (String.eqb n "stub"); [discriminate|]|];
      destruct (ht && tl); discriminate.
  - destruct ht; [reflexivity|]. destruct name as [n|]; simpl;
      [destruct (ho && String.eqb n "onnx"); [discriminate|];
       destruct (String.eqb n "stub"); [discriminate|]|];
      destruct (ho && ol); discriminate.
  - intros ->. simpl. rewrite !andb_false_r. reflexivity.
Qed.

(** X12: a backend name that is not "stub", nor a backend the build
    includes, is ignored: selection falls back to auto-detection, as if
    no name were given. *)
Theorem select_unknown_name_autodetects (pf : platform) (n : string) :
  n <> "stub" -> (has_onnx pf = true -> n <> "onnx") ->
  (has_tflite pf = true -> n <> "tflite") ->
  neuron_shim_select_backend pf (Some n) = neuron_shim_select_backend pf None.
Proof.
  intros Hs Ho Ht. unfold neuron_shim_select_backend.
  destruct (has_onnx pf && String.eqb n "onnx") eqn:E1.
  { apply andb_true_iff in E1 as [E1 E2]. apply String.eqb_eq in E2. exfalso. exact (Ho E1 E2). }
  destruct (has_tflite pf && String.eqb n "tflite") eqn:E2.
  { apply andb_true_iff in E2 as [E2 E3]. apply String.eqb_eq in E3. exfalso. exact (Ht E2 E3). }
  destruct (String.eqb_spec n "stub"); [contradiction|]. reflexivity.
Qed.

Lemma select_unknown_name_autodetects_witness :
  let pf := mk_platform false true false true in
  "onnx" <> "stub" /\ (has_onnx pf = true -> "onnx" <> "onnx") /\
  (has_tflite pf = true -> "onnx" <> "tflite") /\
  neuron_shim_select_backend pf (Some "onnx") = TfliteBackend.
Proof.
  intros pf. split; [discriminate|]. split; [discriminate|]. split; [intros _; discriminate|].
  rewrite (select_unknown_name_autodetects pf "onnx" ltac:(discriminate)
             ltac:(discriminate) ltac:(intros _; discriminate)).
  reflexivity.
Defined.

End RuntimeExtra.

Module ConfigExtra.
Import CStr CStrFacts Config Observe.

Lemma length_sappend (a b : string) : String.length (a ++ b) = String.length a + String.length b.
Proof. induction a as [|c a IH]; simpl; [reflexivity | rewrite IH; reflexivity]. Qed.

Lemma sappend_nil (a : string) : a ++ "" = a.
Proof. induction a as [|c a IH]; simpl; [reflexivity | rewrite IH; reflexivity]. Qed.

Lemma trunc_length (n : nat) (s : string) : String.length (trunc n s) <= n.
Proof.
  unfold trunc. revert n. induction s as [|c s IH]; intros n; simpl.
  - destruct n; simpl; lia.
  - destruct n as [|n]; simpl; [lia|]. specialize (IH n). lia.
Qed.

(** [fgets] on a whole line. *)
Lemma read_chunk_line (body t : string) (k : nat) :
  has_char NL body = false -> String.length body < k ->
  read_chunk k (body ++ String NL t) = (body ++ Resolver.nl, t).
Proof.
  revert k. induction body as [|c body IH]; intros k Hc Hl;
    cbn [String.append has_char String.length] in *.
  - destruct k as [|k]; [lia|]. cbn [read_chunk]. rewrite Ascii.eqb_refl. reflexivity.
  - destruct k as [|k]; [lia|].
    apply orb_false_iff in Hc as [Hc1 Hc2]. cbn [read_chunk].
    rewrite Ascii.eqb_sym in Hc1. fold NL. rewrite Hc1. rewrite IH by (auto; lia). reflexivity.
Qed.

Lemma fgets_all_cons (f : nat) (s : string) :
  s <> "" -> fgets_all (S f) s = let (a, b) := read_chunk 511 s in a :: fgets_all f b.
Proof. destruct s; [congruence | reflexivity]. Qed.

Lemma fgets_all_lines (ls : list string) (f : nat) :
  Forall fgets_line ls -> String.length (join_lines ls) <= f ->
  fgets_all f (join_lines ls) = ls.
Proof.
  revert f. induction ls as [|l ls IH]; intros f Hf Hlen.
  - destruct f; reflexivity.
  - inversion Hf as [|? ? [body [-> [Hn Hb]]] Hrest]; subst.
    unfold join_lines in *; cbn [fold_right] in *.
    rewrite sappend_assoc in *. cbn [String.append Resolver.nl] in *.
    rewrite length_sappend in Hlen. cbn [String.length] in Hlen.
    destruct f as [|f]; [lia|].
    rewrite fgets_all_cons by (destruct body; discriminate).
    rewrite read_chunk_line by (auto; lia). rewrite IH by (auto; lia). reflexivity.
Qed.

Lemma parse_file_lines (ls : list string) (c : NeuronShimConfig) :
  Forall fgets_line ls ->
  parse_config_file (Some (join_lines ls)) c = fold_left apply_line ls c.
Proof.
  intros H. unfold parse_config_file. rewrite fgets_all_lines; auto.
Qed.

Lemma parse_file_line (l : string) (c : NeuronShimConfig) :
  fgets_line l -> parse_config_file (Some l) c = apply_line c l.
Proof.
  intros H. pose proof (parse_file_lines [l] c (Forall_cons _ H (Forall_nil _))) as E.
  unfold join_lines in E. cbn [fold_right] in E. rewrite sappend_nil in E. exact E.
Qed.

(** Character facts. *)
Lemma all_chars_cons_inv (f : ascii -> bool) (c : ascii) (s : string) :
  all_chars f (String c s) = true -> f c = true /\ all_chars f s = true.
Proof. simpl. apply andb_true_iff. Qed.

Lemma all_chars_app (f : ascii -> bool) (a b : string) :
  all_chars f (a ++ b) = all_chars f a && all_chars f b.
Proof. induction a as [|c a IH]; simpl; [reflexivity|]. rewrite IH. apply andb_assoc. Qed.

Lemma all_chars_impl (f g : ascii -> bool) (s : string) :
  (forall c, f c = true -> g c = true) -> all_chars f s = true -> all_chars g s = true.
Proof.
  intros Hfg. induction s as [|c s IH]; simpl; [reflexivity|].
  intros H. apply andb_true_iff in H as [H1 H2]. rewrite (Hfg c H1). simpl. auto.
Qed.

Lemma all_chars_no_char (f : ascii -> bool) (c : ascii) (s : string) :
  f c = false -> all_chars f s = true -> has_char c s = false.
Proof.
  intros Hc. induction s as [|d s IH]; simpl; [reflexivity|].
  intros H. apply andb_true_iff in H as [H1 H2]. rewrite IH by exact H2.
  destruct (Ascii.eqb_spec c d); [subst; congruence | reflexivity].
Qed.

Lemma c_str_clean (s t : string) :
  all_chars (fun c => negb (Ascii.eqb c "000"%char)) s = true -> c_str (s ++ t) = s ++ c_str t.
Proof.
  induction s as [|c s IH]; simpl; [reflexivity|].
  intros H. apply andb_true_iff in H as [H1 H2]. apply negb_true_iff in H1.
  rewrite H1, IH by exact H2. reflexivity.
Qed.

Lemma scan_word_word (k : nat) (s t : string) (c : ascii) :
  all_chars (fun d => negb (is_space d)) s = true -> String.length s < k -> is_space c = true ->
  scan_word k (s ++ String c t) = s.
Proof.
  revert k. induction s as [|d s IH]; intros k H Hl Hc;
    cbn [scan_word String.append String.length all_chars] in *.
  - destruct k; [lia|]. cbn [scan_word]. rewrite Hc. reflexivity.
  - destruct k as [|k]; [lia|]. cbn [scan_word]. apply andb_true_iff in H as [H1 H2].
    apply negb_true_iff in H1. rewrite H1, IH by (auto; lia). reflexivity.
Qed.

Lemma word_no_space (v : string) :
  word v = true -> all_chars (fun d => negb (is_space d)) v = true.
Proof.
  unfold word. intros H. apply andb_true_iff in H as [_ H].
  apply (all_chars_impl (fun c => negb (is_space c) && negb (Ascii.eqb c "000"%char)) _ v); [|exact H].
  intros c Hc. apply andb_true_iff in Hc as [Hc _]. exact Hc.
Qed.

Lemma word_no_nul (v : string) :
  word v = true -> all_chars (fun c => negb (Ascii.eqb c "000"%char)) v = true.
Proof.
  unfold word. intros H. apply andb_true_iff in H as [_ H].
  apply (all_chars_impl (fun c => negb (is_space c) && negb (Ascii.eqb c "000"%char)) _ v); [|exact H].
  intros c Hc. apply andb_true_iff in Hc as [_ Hc]. exact Hc.
Qed.

Lemma c_str_nl : c_str Resolver.nl = Resolver.nl.
Proof. reflexivity. Qed.

(** A [key = value] line with a [%s] word as value. *)
Lemma apply_kv_line (k v : string) (c : NeuronShimConfig) :
  In k config_keys -> word v = true -> String.length v < 511 ->
  apply_line c (k ++ " = " ++ v ++ Resolver.nl) = set_field c (k, v).
Proof.
  intros Hk Hw Hl.
  pose proof (c_str_clean v Resolver.nl (word_no_nul v Hw)) as E1.
  rewrite c_str_nl in E1.
  pose proof (word_no_space v Hw) as Hs.
  assert (E2 : skip_space (v ++ Resolver.nl) = v ++ Resolver.nl).
  { destruct v as [|d r]; [discriminate Hw|].
    apply all_chars_cons_inv in Hs as [Hd _]. apply negb_true_iff in Hd.
    simpl. rewrite Hd. reflexivity. }
  assert (E3 : scan_word 511 (v ++ Resolver.nl) = v).
  { apply scan_word_word; auto. }
  assert (E4 : String.eqb v "" = false).
  { unfold word in Hw. apply andb_true_iff in Hw as [Hw _]. apply negb_true_iff in Hw. exact Hw. }
  remember (v ++ Resolver.nl) as X eqn:HX. clear HX.
  unfold config_keys in Hk. simpl in Hk.
  destruct Hk as [<-|[<-|[<-|[<-|[<-|[<-|[]]]]]]];
    unfold apply_line, parse_line; simpl; rewrite E1; unfold sscanf_kv;
    with_strategy opaque [scan_word] simpl; rewrite E2;
    with_strategy opaque [scan_word] simpl;
    rewrite E3, E4; reflexivity.
Qed.

Lemma sscanf_kv_key (p key v : string) :
  sscanf_kv p = Some (key, v) -> exists rest, scan_key 63 p = (key, rest).
Proof.
  unfold sscanf_kv. destruct (scan_key 63 p) as [k r].
  destruct (String.eqb k ""); [discriminate|].
  intros H. exists r. f_equal. revert H. generalize (skip_space r) as s. intros s.
  destruct s as [|ch r2]; [discriminate|].
  destruct ch as [b0 b1 b2 b3 b4 b5 b6 b7];
    destruct b0, b1, b2, b3, b4, b5, b6, b7; simpl; try discriminate;
    destruct (String.eqb _ ""); try discriminate; congruence.
Qed.

Lemma scan_key_prefix (k : nat) (pre t : string) :
  all_chars (fun c => negb (Ascii.eqb c "="%char || Ascii.eqb c " "%char)) pre = true ->
  String.length pre <= k -> exists a b, scan_key k (pre ++ t) = (pre ++ a, b).
Proof.
  revert k. induction pre as [|d pre IH]; intros k H Hl.
  - destruct (scan_key k t) as [a b] eqn:E. exists a, b. exact E.
  - destruct k as [|k]; cbn [String.length] in Hl; [lia|].
    cbn [all_chars] in H. apply andb_true_iff in H as [H1 H2]. apply negb_true_iff in H1.
    destruct (IH k H2 ltac:(lia)) as [a [b E]].
    exists a, b. cbn [String.append scan_key]. rewrite H1, E. reflexivity.
Qed.

(** [%zu] digits. *)
Lemma digit_char (k : nat) :
  (k < 10)%nat ->
  is_digit (ascii_of_nat (48 + k)) = true /\
  (Z.of_nat (nat_of_ascii (ascii_of_nat (48 + k))) - 48 = Z.of_nat k)%Z.
Proof.
  intros Hk. unfold is_digit. rewrite nat_ascii_embedding by lia.
  split; [apply andb_true_iff; split; apply Nat.leb_le; lia | lia].
Qed.

Lemma digit_of_mod (n : Z) :
  (0 <= n)%Z ->
  is_digit (ascii_of_nat (48 + Z.to_nat (n mod 10))) = true /\
  (Z.of_nat (nat_of_ascii (ascii_of_nat (48 + Z.to_nat (n mod 10)))) - 48 = n mod 10)%Z.
Proof.
  intros Hn. pose proof (Z.mod_pos_bound n 10 ltac:(lia)).
  destruct (digit_char (Z.to_nat (n mod 10)) ltac:(lia)) as [A B].
  split; [exact A|]. rewrite B. lia.
Qed.

Lemma dec_digits_app (f : nat) (n : Z) (acc t : string) :
  dec_digits f n acc ++ t = dec_digits f n (acc ++ t).
Proof.
  revert n acc. induction f as [|f IH]; intros n acc; cbn [dec_digits]; [reflexivity|].
  destruct (n <? 10)%Z; [reflexivity|]. apply (IH _ (String _ acc)).
Qed.

Lemma dec_digits_value (f : nat) (n : Z) (acc : string) :
  (0 <= n < 10 ^ Z.of_nat f)%Z ->
  exists k : nat, forall a, digits_value a (dec_digits f n acc)
                            = digits_value (a * 10 ^ Z.of_nat k + n) acc.
Proof.
  revert n acc. induction f as [|f IH]; intros n acc Hn.
  - cbn in Hn. exists 0%nat. intros a. cbn [dec_digits]. f_equal. cbn. lia.
  - destruct (digit_of_mod n ltac:(lia)) as [D V].
    cbn [dec_digits]. destruct (Z.ltb_spec n 10).
    + exists 1%nat. intros a. cbn [digits_value]. rewrite D, V. f_equal.
      rewrite Z.mod_small by lia. change (Z.of_nat 1) with 1%Z. rewrite Z.pow_1_r. lia.
    + rewrite Nat2Z.inj_succ, Z.pow_succ_r in Hn by lia.
      destruct (IH (n / 10)%Z (String (ascii_of_nat (48 + Z.to_nat (n mod 10))) acc))
        as [k Hk].
      { split; [apply Z.div_pos; lia|]. apply Z.div_lt_upper_bound; lia. }
      exists (S k). intros a. rewrite Hk. cbn [digits_value]. rewrite D, V. f_equal.
      rewrite Nat2Z.inj_succ, Z.pow_succ_r by lia.
      pose proof (Z.div_mod n 10 ltac:(lia)). nia.
Qed.

Lemma dec_digits_chars (f : nat) (n : Z) (acc : string) :
  (0 <= n)%Z -> all_chars is_digit (dec_digits f n acc) = all_chars is_digit acc.
Proof.
  revert n acc. induction f as [|f IH]; intros n acc Hn; cbn [dec_digits]; [reflexivity|].
  destruct (digit_of_mod n Hn) as [D _].
  destruct (n <? 10)%Z.
  - cbn [all_chars]. rewrite D. reflexivity.
  - rewrite IH by (apply Z.div_pos; lia). cbn [all_chars]. rewrite D. reflexivity.
Qed.

Lemma dec_digits_length (f : nat) (n : Z) (acc : string) :
  String.length acc < String.length (dec_digits (S f) n acc) <= S f + String.length acc.
Proof.
  revert n acc. induction f as [|f IH]; intros n acc.
  - cbn [dec_digits]. destruct (n <? 10)%Z; cbn [String.length]; lia.
  - cbn [dec_digits]. destruct (n <? 10)%Z; [cbn [String.length]; lia|].
    specialize (IH (n / 10)%Z (String (ascii_of_nat (48 + Z.to_nat (n mod 10))) acc)).
    cbn [dec_digits String.length] in IH |- *. lia.
Qed.

Lemma fmt_zu_digits (n : Z) :
  (0 <= n)%Z ->
  all_chars is_digit (fmt_zu n) = true /\ 1 <= String.length (fmt_zu n) <= 20.
Proof.
  intros Hn. split; [unfold fmt_zu; rewrite dec_digits_chars; auto|].
  pose proof (dec_digits_length 19 n "") as H.
  change (String.length "") with 0 in H. change (dec_digits (S 19) n "") with (fmt_zu n) in H.
  lia.
Qed.

Lemma digit_not_space (c : ascii) : is_digit c = true -> is_space c = false.
Proof.
  unfold is_digit, is_space. intros H. apply andb_true_iff in H as [H1 H2].
  apply Nat.leb_le in H1, H2.
  destruct (Nat.eqb_spec (nat_of_ascii c) 32); [lia|].
  destruct (Nat.leb_spec 9 (nat_of_ascii c)); destruct (Nat.leb_spec (nat_of_ascii c) 13);
    simpl; auto; lia.
Qed.

Lemma digit_not_nul (c : ascii) : is_digit c = true -> Ascii.eqb c "000"%char = false.
Proof.
  intros H. destruct (Ascii.eqb_spec c "000"%char); [subst; discriminate H | reflexivity].
Qed.

Lemma fmt_zu_word (n : Z) : (0 <= n)%Z -> word (fmt_zu n) = true.
Proof.
  intros Hn. destruct (fmt_zu_digits n Hn) as [A L]. unfold word.
  apply andb_true_iff. split.
  - destruct (fmt_zu n); [simpl in L; lia | reflexivity].
  - apply (all_chars_impl is_digit); [|exact A].
    intros c Hc. rewrite digit_not_space, digit_not_nul by exact Hc. reflexivity.
Qed.

Lemma strtol_digit_head (d : ascii) (r : string) :
  is_digit d = true ->
  strtol10 (String d r) = Z.max LONG_MIN (Z.min LONG_MAX (digits_value 0 (String d r))).
Proof.
  intros H. unfold strtol10.
  destruct d as [b0 b1 b2 b3 b4 b5 b6 b7];
    destruct b0, b1, b2, b3, b4, b5, b6, b7; try (vm_compute in H; discriminate H);
    reflexivity.
Qed.

Lemma atoi_fmt_zu (n : Z) : (0 <= n < 2 ^ 31)%Z -> atoi (fmt_zu n) = n.
Proof.
  intros Hn. destruct (fmt_zu_digits n ltac:(lia)) as [A L].
  assert (V : digits_value 0 (fmt_zu n) = n).
  { unfold fmt_zu. destruct (dec_digits_value 20 n "") as [k Hk].
    { split; [lia|]. eapply Z.lt_le_trans; [apply Hn|]. vm_compute. discriminate. }
    rewrite Hk. simpl. lia. }
  unfold atoi. destruct (fmt_zu n) as [|d r] eqn:E; [simpl in L; lia|].
  apply all_chars_cons_inv in A as [Ad _].
  rewrite strtol_digit_head by exact Ad. rewrite V.
  unfold LONG_MIN, LONG_MAX, to_int.
  rewrite Z.max_r, Z.min_r by lia. rewrite Z.mod_small by lia.
  destruct (Z.geb_spec n (2 ^ 31)); lia.
Qed.

Lemma fgets_kv_line (k v : string) :
  String.length k + 3 + String.length v <= 510 ->
  has_char NL k = false -> word v = true ->
  fgets_line (k ++ " = " ++ v ++ Resolver.nl).
Proof.
  intros Hl Hk Hw. exists (k ++ " = " ++ v). split; [rewrite !sappend_assoc; reflexivity|].
  split.
  - assert (G : forall a b, has_char NL (a ++ b) = has_char NL a || has_char NL b).
    { intros a b. induction a as [|x a IH]; simpl; [reflexivity|]. rewrite IH. apply orb_assoc. }
    rewrite !G, Hk. simpl.
    apply (all_chars_no_char (fun d => negb (is_space d))); [reflexivity|].
    apply word_no_space. exact Hw.
  - rewrite !length_sappend. simpl. lia.
Qed.

Lemma parse_kv_file (k v : string) (c : NeuronShimConfig) :
  In k config_keys -> word v = true -> String.length k + 3 + String.length v <= 510 ->
  has_char NL k = false ->
  parse_config_file (Some (k ++ " = " ++ v ++ Resolver.nl)) c = set_field c (k, v).
Proof.
  intros Hk W L N. rewrite parse_file_line by (apply fgets_kv_line; auto).
  apply apply_kv_line; auto. lia.
Qed.

Lemma set_field_fits (c : NeuronShimConfig) (kv : string * string) :
  fields_fit c -> fields_fit (set_field c kv).
Proof.
  destruct kv as [key value]. unfold fields_fit, set_field. intros (H1 & H2 & H3).
  repeat match goal with |- context [if ?b then _ else _] => destruct b end;
    cbn [backend suffix model_dir]; repeat split; auto; apply trunc_length.
Qed.

Lemma parse_config_file_fits (file : option string) (c : NeuronShimConfig) :
  fields_fit c -> fields_fit (parse_config_file file c).
Proof.
  destruct file as [txt|]; simpl; [|auto].
  generalize (fgets_all (String.length txt) txt) as ls. intros ls. revert c.
  induction ls as [|l ls IH]; intros c H; simpl; [exact H|].
  apply IH. unfold apply_line. destruct (parse_line l); [apply set_field_fits|]; exact H.
Qed.

Lemma apply_env_fits (e : env) (c : NeuronShimConfig) :
  fields_fit c -> fields_fit (apply_env e c).
Proof.
  unfold fields_fit. intros (H1 & H2 & H3). rewrite ConfigProofs.apply_env_fields.
  cbn [backend suffix model_dir].
  destruct (env_backend e), (env_suffix e), (env_model_dir e); cbn [ConfigProofs.or_else];
    repeat split; auto; apply trunc_length.
Qed.

(** X13: a configuration file made of whole lines (each at most 510 bytes
    before its newline) is applied line by line in file order: [fgets]
    neither splits nor merges such lines. *)
Theorem config_file_line_by_line (ls : list string) (c : NeuronShimConfig) :
  Forall fgets_line ls ->
  parse_config_file (Some (join_lines ls)) c = fold_left apply_line ls c.
Proof. apply parse_file_lines. Qed.

Lemma config_file_line_by_line_witness :
  Forall fgets_line ["backend = tflite" ++ Resolver.nl; "# threads = 2" ++ Resolver.nl] /\
  parse_config_file (Some (join_lines ["backend = tflite" ++ Resolver.nl;
                                       "# threads = 2" ++ Resolver.nl])) g_config_init
  = fold_left apply_line ["backend = tflite" ++ Resolver.nl; "# threads = 2" ++ Resolver.nl]
              g_config_init.
Proof.
  assert (F : Forall fgets_line ["backend = tflite" ++ Resolver.nl; "# threads = 2" ++ Resolver.nl]).
  { repeat constructor.
    - exists "backend = tflite". split; [reflexivity|]. split; [reflexivity|]. simpl. lia.
    - exists "# threads = 2". split; [reflexivity|]. split; [reflexivity|]. simpl. lia. }
  split; [exact F|]. exact (config_file_line_by_line _ g_config_init F).
Defined.

(** X14: in a configuration line, a known key followed by a tab (rather
    than a space or '=') is never recognised: [%63[^= ]] keeps the tab in
    the key, and the whole line is ignored. *)
Theorem config_tab_after_key_ignored (k rest : string) (c : NeuronShimConfig) :
  In k config_keys -> apply_line c (k ++ String "009"%char rest) = c.
Proof.
  intros Hk. unfold apply_line.
  destruct (parse_line (k ++ String "009"%char rest)) as [[key v]|] eqn:E; [|reflexivity].
  assert (Hk' : k = "backend" \/ k = "suffix" \/ k = "model_dir" \/ k = "threads" \/
                k = "force_cpu" \/ k = "log_level")
    by (simpl in Hk; destruct Hk as [<-|[<-|[<-|[<-|[<-|[<-|[]]]]]]]; tauto).
  assert (E' : sscanf_kv (c_str ((k ++ String "009"%char "") ++ rest)) = Some (key, v)).
  { rewrite sappend_assoc. rewrite <- E.
    destruct Hk' as [-> | [-> | [-> | [-> | [-> | -> ]]]]]; reflexivity. }
  apply sscanf_kv_key in E' as [r E'].
  assert (Hn : all_chars (fun c => negb (Ascii.eqb c "000"%char)) (k ++ String "009"%char "") = true)
    by (destruct Hk' as [-> | [-> | [-> | [-> | [-> | -> ]]]]]; reflexivity).
  rewrite (c_str_clean _ _ Hn) in E'.
  destruct (scan_key_prefix 63 (k ++ String "009"%char "") (c_str rest)) as [a [b Hs]].
  { destruct Hk' as [-> | [-> | [-> | [-> | [-> | -> ]]]]]; reflexivity. }
  { destruct Hk' as [-> | [-> | [-> | [-> | [-> | -> ]]]]]; simpl; lia. }
  rewrite Hs in E'. injection E' as <- _.
  destruct Hk' as [-> | [-> | [-> | [-> | [-> | -> ]]]]]; reflexivity.
Qed.

Lemma config_tab_after_key_ignored_witness :
  In "threads" config_keys /\
  apply_line g_config_init ("threads" ++ String "009"%char "= 8") = g_config_init.
Proof.
  split; [simpl; tauto|].
  apply (config_tab_after_key_ignored "threads" "= 8" g_config_init). simpl; tauto.
Defined.

(** X15: a configuration file whose only line is [threads = N] or
    [log_level = N], with N written in decimal and 0 <= N < 2^31, sets
    that field to exactly N and leaves the other fields unchanged. *)
Theorem config_numeric_round_trip (n : Z) (c : NeuronShimConfig) :
  (0 <= n < 2 ^ 31)%Z ->
  parse_config_file (Some ("threads = " ++ fmt_zu n ++ Resolver.nl)) c
    = mk_config (backend c) (suffix c) (model_dir c) n (force_cpu c) (log_level c) /\
  parse_config_file (Some ("log_level = " ++ fmt_zu n ++ Resolver.nl)) c
    = mk_config (backend c) (suffix c) (model_dir c) (threads c) (force_cpu c) n.
Proof.
  intros Hn. destruct (fmt_zu_digits n ltac:(lia)) as [_ L].
  pose proof (fmt_zu_word n ltac:(lia)) as W.
  split.
  - etransitivity; [apply (parse_kv_file "threads"); auto; simpl; [tauto|lia]|].
    cbn -[atoi fmt_zu]. rewrite atoi_fmt_zu by exact Hn. reflexivity.
  - etransitivity; [apply (parse_kv_file "log_level"); auto; simpl; [tauto|lia]|].
    cbn -[atoi fmt_zu]. rewrite atoi_fmt_zu by exact Hn. reflexivity.
Qed.

Lemma config_numeric_round_trip_witness :
  (0 <= 1234 < 2 ^ 31)%Z /\
  parse_config_file (Some ("threads = " ++ fmt_zu 1234 ++ Resolver.nl)) g_config_init
  = mk_config "auto" "auto" "" 1234 false 3.
Proof.
  split; [lia|]. exact (proj1 (config_numeric_round_trip 1234 g_config_init ltac:(lia))).
Defined.

(** X16: a configuration file whose only line is [backend = V],
    [suffix = V], [model_dir = V] or [force_cpu = V], for a value V of at
    most 498 bytes without white space or NUL, sets backend and suffix to
    the first 31 bytes of V, model_dir to V, and force_cpu to whether V
    is "true" or "1"; the other fields are unchanged. *)
Theorem config_string_round_trip (v : string) (c : NeuronShimConfig) :
  word v = true -> String.length v <= 498 ->
  parse_config_file (Some ("backend = " ++ v ++ Resolver.nl)) c
    = mk_config (trunc 31 v) (suffix c) (model_dir c) (threads c) (force_cpu c) (log_level c) /\
  parse_config_file (Some ("suffix = " ++ v ++ Resolver.nl)) c
    = mk_config (backend c) (trunc 31 v) (model_dir c) (threads c) (force_cpu c) (log_level c) /\
  parse_config_file (Some ("model_dir = " ++ v ++ Resolver.nl)) c
    = mk_config (backend c) (suffix c) v (threads c) (force_cpu c) (log_level c) /\
  parse_config_file (Some ("force_cpu = " ++ v ++ Resolver.nl)) c
    = mk_config (backend c) (suffix c) (model_dir c) (threads c)
                (String.eqb v "true" || String.eqb v "1") (log_level c).
Proof.
  intros W L.
  split; [|split; [|split]].
  - etransitivity; [apply (parse_kv_file "backend"); auto; simpl; [tauto|lia]|]. reflexivity.
  - etransitivity; [apply (parse_kv_file "suffix"); auto; simpl; [tauto|lia]|]. reflexivity.
  - etransitivity; [apply (parse_kv_file "model_dir"); auto; simpl; [tauto|lia]|].
    cbn [set_field]. cbn -[trunc]. rewrite trunc_id by lia. reflexivity.
  - etransitivity; [apply (parse_kv_file "force_cpu"); auto; simpl; [tauto|lia]|]. reflexivity.
Qed.

Lemma config_string_round_trip_witness :
  word "/opt/models" = true /\ String.length "/opt/models" <= 498 /\
  parse_config_file (Some ("model_dir = " ++ "/opt/models" ++ Resolver.nl)) g_config_init
  = mk_config "auto" "auto" "/opt/models" 4 false 3.
Proof.
  split; [reflexivity|]. split; [simpl; lia|].
  exact (proj1 (proj2 (proj2 (config_string_round_trip "/opt/models" g_config_init
                                 ltac:(reflexivity) ltac:(simpl; lia))))).
Defined.

(** X17: whatever the configuration files and environment contain, the
    loaded configuration's backend and suffix are at most 31 bytes and
    its model_dir at most 511 bytes, so they fit their [char] arrays with
    the terminating NUL. *)
Theorem config_load_fields_fit (etc_file local_file : option string) (e : env) :
  let cfg := neuron_shim_config_load etc_file local_file e in
  String.length (backend cfg) <= 31 /\ String.length (suffix cfg) <= 31 /\
  String.length (model_dir cfg) <= 511.
Proof.
  apply apply_env_fits. apply parse_config_file_fits. apply parse_config_file_fits.
  unfold fields_fit. simpl. lia.
Qed.

End ConfigExtra.

Module ResolverExtra.
Import CStr CStrFacts Resolver Observe.

Lemma basename_eq (s : string) :
  basename s =
  if String.eqb s "" then "."
  else let r := strip_trailing_slashes_rev (rev (list_ascii_of_string s)) in
       match r with
       | [] => "/"
       | _ => string_of_list_ascii (rev (base_take r))
       end.
Proof. reflexivity. Qed.

Lemma las_app (a b : string) :
  list_ascii_of_string (a ++ b) = (list_ascii_of_string a ++ list_ascii_of_string b)%list.
Proof. induction a as [|c a IH]; simpl; [reflexivity | rewrite IH; reflexivity]. Qed.

Lemma las_slashes (k : nat) : list_ascii_of_string (slashes k) = repeat "/"%char k.
Proof. induction k as [|k IH]; simpl; [reflexivity | rewrite IH; reflexivity]. Qed.

Lemma rev_repeat {A} (x : A) (k : nat) : rev (repeat x k) = repeat x k.
Proof.
  induction k as [|k IH]; simpl; [reflexivity|]. rewrite IH.
  clear IH. induction k as [|k IH]; simpl; [reflexivity | rewrite IH; reflexivity].
Qed.

Lemma strip_slashes (k : nat) (l : list ascii) :
  strip_trailing_slashes_rev (repeat "/"%char k ++ l) = strip_trailing_slashes_rev l.
Proof. induction k as [|k IH]; simpl; auto. Qed.

Lemma strip_cons_ne (y : ascii) (l : list ascii) :
  y <> "/"%char -> strip_trailing_slashes_rev (y :: l) = y :: l.
Proof.
  intros H. destruct y as [b0 b1 b2 b3 b4 b5 b6 b7];
    destruct b0, b1, b2, b3, b4, b5, b6, b7; try reflexivity; exfalso; apply H; reflexivity.
Qed.

Lemma take_cons_ne (y : ascii) (l : list ascii) :
  y <> "/"%char -> base_take (y :: l) = y :: base_take l.
Proof.
  intros H. destruct y as [b0 b1 b2 b3 b4 b5 b6 b7];
    destruct b0, b1, b2, b3, b4, b5, b6, b7; try reflexivity; exfalso; apply H; reflexivity.
Qed.

Lemma take_no_slash (l r : list ascii) :
  ~ In "/"%char l -> base_take (l ++ r) = (l ++ base_take r)%list.
Proof.
  induction l as [|y l IH]; intros H; cbn [app]; [reflexivity|].
  rewrite take_cons_ne by (intros E; apply H; left; auto).
  rewrite IH by (intros E; apply H; right; exact E). reflexivity.
Qed.

Lemma has_char_in (c : ascii) (s : string) :
  Observe.has_char c s = false -> ~ In c (list_ascii_of_string s).
Proof.
  induction s as [|d s IH]; simpl; [auto|].
  intros H. apply orb_false_iff in H as [H1 H2]. intros [E|E].
  - subst. rewrite Ascii.eqb_refl in H1. discriminate.
  - exact (IH H2 E).
Qed.

Lemma rev_nonempty_last (l : list ascii) :
  l <> [] -> ~ In "/"%char l -> exists y t, rev l = y :: t /\ y <> "/"%char.
Proof.
  intros Hn Hs. destruct (rev l) as [|y t] eqn:E.
  - apply (f_equal (@rev ascii)) in E. rewrite rev_involutive in E. simpl in E. congruence.
  - exists y, t. split; [reflexivity|]. intros ->. apply Hs. apply in_rev. rewrite E. left; auto.
Qed.

Lemma basename_tail (pre : list ascii) (b : string) (k : nat) (s : string) :
  b <> "" -> Observe.has_char "/" b = false -> s <> "" ->
  rev (list_ascii_of_string s) = (repeat "/"%char k ++ rev (list_ascii_of_string b) ++ pre)%list ->
  (pre = [] \/ exists pre', pre = "/"%char :: pre') ->
  basename s = b.
Proof.
  intros Hb Hs Hne E Hpre. rewrite basename_eq.
  destruct (String.eqb_spec s ""); [contradiction|].
  cbv zeta. rewrite E, strip_slashes.
  assert (Hin := has_char_in _ _ Hs).
  assert (Hl : list_ascii_of_string b <> []) by (destruct b; [contradiction|discriminate]).
  destruct (rev_nonempty_last _ Hl Hin) as [y [t [Er Hy]]].
  rewrite Er. cbn [app]. rewrite strip_cons_ne by exact Hy. cbv beta iota.
  change (y :: (t ++ pre))%list with ((y :: t) ++ pre)%list. rewrite <- Er. rewrite take_no_slash by (intros X; apply Hin; apply in_rev; exact X).
  destruct Hpre as [->|[pre' ->]]; cbn [base_take]; rewrite app_nil_r, rev_involutive;
    apply string_of_list_ascii_of_string.
Qed.

(** X18: [basename] as the resolver uses it keeps the last path component
    of the requested path: for a non-empty file name [b] without '/',
    both "[d]/[b]" and "[b]", followed by any number of trailing
    slashes, have basename [b]. *)
Theorem basename_last_component (d b : string) (k : nat) :
  b <> "" -> Observe.has_char "/" b = false ->
  basename (d ++ "/" ++ b ++ slashes k) = b /\ basename (b ++ slashes k) = b.
Proof.
  intros Hb Hs. split.
  - apply (basename_tail ("/"%char :: rev (list_ascii_of_string d)) b k); auto.
    + destruct d; discriminate.
    + rewrite !las_app, las_slashes. simpl. rewrite rev_app_distr. cbn [rev].
      rewrite !rev_app_distr, rev_repeat, <- !app_assoc. reflexivity.
    + right. eexists. reflexivity.
  - apply (basename_tail [] b k); auto.
    + destruct b; [contradiction|discriminate].
    + rewrite !las_app, las_slashes. rewrite !rev_app_distr, rev_repeat, app_nil_r.
      reflexivity.
Qed.

Lemma basename_last_component_witness :
  "net.dla" <> "" /\ Observe.has_char "/" "net.dla" = false /\
  basename ("/data/models" ++ "/" ++ "net.dla" ++ slashes 2) = "net.dla".
Proof.
  split; [discriminate|]. split; [reflexivity|].
  exact (proj1 (basename_last_component "/data/models" "net.dla" 2
                  ltac:(discriminate) ltac:(reflexivity))).
Defined.

(** X19: [neuron_shim_resolve_model] returns 0 or -1 only.  With a NULL
    path or suffix it returns -1 without writing the buffer or stderr.
    Otherwise it returns 0 exactly when the computed path is shorter than
    the buffer and readable, and then the buffer holds the whole computed
    path and nothing is written to stderr. *)
Theorem resolve_outcomes (readable : string -> bool) (p s : option string)
    (md : option string) (len : nat) :
  let rr := neuron_shim_resolve_model readable p s md len in
  (rr_rc rr = 0%Z \/ rr_rc rr = (-1)%Z) /\
  (p = None \/ s = None -> rr = mk_resolve_result (-1) None []) /\
  (forall p' s', p = Some p' -> s = Some s' ->
     let full := resolved_string p' s' md in
     (rr_rc rr = 0%Z <-> String.length full < len /\ readable full = true) /\
     (rr_rc rr = 0%Z -> rr_buf rr = Some full /\ rr_diag rr = [])).
Proof.
  cbv zeta. split; [|split].
  - unfold neuron_shim_resolve_model. destruct p, s; simpl; auto.
    destruct (Nat.leb _ _); simpl; auto. destruct (readable _); simpl; auto.
  - intros [-> | ->]; [reflexivity|]. destruct p; reflexivity.
  - intros p' s' -> ->. unfold neuron_shim_resolve_model.
    destruct (Nat.leb_spec len (String.length (resolved_string p' s' md))) as [Hl|Hl].
    + cbn [rr_rc]. split; [split; [discriminate|lia]|discriminate].
    + destruct (readable (resolved_string p' s' md)) eqn:Er; cbn [rr_rc rr_buf rr_diag].
      * split; [tauto|]. intros _. split; [|reflexivity].
        destruct len as [|n]; [lia|]. rewrite trunc_id by lia. reflexivity.
      * split; [split; [discriminate|intros [_ X]; discriminate X]|discriminate].
Qed.

End ResolverExtra.

Module OnnxExtra.
Import Mem MemFacts Onnx Observe.
Local Open Scope Z_scope.

Lemma fold_mod_prod (f : Z -> Z) (l : list Z) (a : Z) :
  fold_left (fun total d => (total * f d) mod 2 ^ 64) l (a mod 2 ^ 64)
  = (a * prod (map f l)) mod 2 ^ 64.
Proof.
  revert a. induction l as [|d l IH]; intros a; cbn [fold_left map prod fold_right].
  - rewrite Z.mul_1_r. reflexivity.
  - rewrite Z.mul_mod_idemp_l by lia. rewrite IH. f_equal. unfold prod. ring.
Qed.

Lemma fill_sizes_seq (meta : nat -> option (list Z * Z)) (k a : nat) (sizes : list Z) :
  (forall i, (a <= i < a + k)%nat ->
     exists sh ty, meta i = Some (sh, ty) /\ (length sh <= 8)%nat) ->
  exists s, fill_sizes meta (seq a k) sizes = Some (true, s) /\
    length s = length sizes /\
    (forall i, (i < a \/ a + k <= i)%nat -> nth i s 0 = nth i sizes 0) /\
    (forall i sh ty, (a <= i < a + k)%nat -> (i < length sizes)%nat ->
       meta i = Some (sh, ty) -> nth i s 0 = compute_tensor_size sh ty).
Proof.
  revert a sizes. induction k as [|k IH]; intros a sizes H.
  - exists sizes. repeat split; auto. intros i sh ty Hi. lia.
  - destruct (H a ltac:(lia)) as [sh0 [ty0 [Em Hl]]].
    destruct (IH (S a) (upd sizes a (compute_tensor_size sh0 ty0))) as [s [Ef [Ls [Out In']]]].
    { intros i Hi. apply H. lia. }
    exists s. cbn [seq fill_sizes]. rewrite Em.
    destruct (Nat.ltb_spec 8 (length sh0)); [lia|].
    split; [exact Ef|]. split; [rewrite Ls; apply length_upd|]. split.
    + intros i Hi. rewrite Out by lia. apply nth_upd_neq. lia.
    + intros i sh ty Hi Hlen Hm. destruct (Nat.eq_dec i a) as [->|Hne].
      * rewrite Out by lia. rewrite nth_upd_eq by exact Hlen. congruence.
      * apply (In' i); auto; [lia|]. rewrite length_upd. exact Hlen.
Qed.

Lemma clamp_count_min (n : Z) : clamp_count n = Z.min n MAX_TENSORS.
Proof. unfold clamp_count, MAX_TENSORS. destruct (Z.gtb_spec n 32); lia. Qed.

Lemma to_size_t_small (x : Z) : 0 <= x < 2 ^ 64 -> to_size_t x = x.
Proof. intros H. unfold to_size_t. apply Z.mod_small. exact H. Qed.

Lemma copy_outputs_all_ok (c : OnnxContext) (ort : ort_answers) (idx : list nat) :
  (forall j, output_present ort j = true) -> (forall j, get_data_ok ort j = true) ->
  copy_outputs c ort idx =
  (true, flat_map (fun i => let '(buf, bsize) := nth i (output_bindings c) (0%nat, 0) in
                            if (buf =? 0)%nat then []
                            else [(buf, if bsize >? nth i (output_sizes c) 0
                                        then nth i (output_sizes c) 0 else bsize)]) idx).
Proof.
  intros Hp Hg. induction idx as [|i idx IH]; [reflexivity|].
  cbn [copy_outputs flat_map]. destruct (nth i (output_bindings c) (0%nat, 0)) as [buf bs].
  rewrite Hp, Hg. destruct (buf =? 0)%nat; cbn [negb andb]; rewrite IH; reflexivity.
Qed.

(** X20: [compute_tensor_size] is the element size times the product of
    the dimensions, non-positive (dynamic) dimensions counting as 1,
    modulo 2^64; the element size is 1, 2, 4 or 8 bytes. *)
Theorem compute_tensor_size_product (shape : list Z) (ty : Z) :
  compute_tensor_size shape ty
  = (ort_element_size ty * prod (map (fun d => if d <=? 0 then 1 else d) shape)) mod 2 ^ 64 /\
  In (ort_element_size ty) [1; 2; 4; 8].
Proof.
  assert (Hel : In (ort_element_size ty) [1; 2; 4; 8]).
  { unfold ort_element_size.
    destruct ty as [|p|p]; [simpl; tauto| |simpl; tauto].
    repeat (destruct p as [p|p|]; try (simpl; tauto)). }
  split; [|exact Hel].
  unfold compute_tensor_size.
  rewrite <- (Z.mod_small (ort_element_size ty) (2 ^ 64)) at 1.
  - apply fold_mod_prod.
  - simpl in Hel. lia.
Qed.

(** X21: when ONNX Runtime creates the session and answers every metadata
    query, with at most 8 dimensions per tensor, [onnx_load_from_file]
    returns 0; the context then has a session, min(N, 32) inputs and
    min(M, 32) outputs for the reported counts N and M, the bindings it
    had, and [onnx_get_input_size] / [onnx_get_output_size] report the
    [compute_tensor_size] of each tensor. *)
Theorem onnx_load_success (c : OnnxContext) (m : ort_model) (n n' : Z) :
  create_session_ok m = true -> allocator_ok m = true ->
  model_input_count m = Some n -> model_output_count m = Some n' ->
  0 <= n -> 0 <= n' ->
  (forall i, (i < Z.to_nat (Z.min n 32))%nat ->
     exists shape ty, model_input m i = Some (shape, ty) /\ (length shape <= 8)%nat) ->
  (forall i, (i < Z.to_nat (Z.min n' 32))%nat ->
     exists shape ty, model_output m i = Some (shape, ty) /\ (length shape <= 8)%nat) ->
  length (input_sizes c) = 32%nat -> length (output_sizes c) = 32%nat ->
  exists c', onnx_load_from_file c m = Some (0, c') /\
    session c' = true /\ input_count c' = Z.min n 32 /\ output_count c' = Z.min n' 32 /\
    input_bindings c' = input_bindings c /\ output_bindings c' = output_bindings c /\
    (forall i shape ty, 0 <= i < Z.min n 32 -> model_input m (Z.to_nat i) = Some (shape, ty) ->
       onnx_get_input_size c' i = (0, Some (compute_tensor_size shape ty))) /\
    (forall i shape ty, 0 <= i < Z.min n' 32 -> model_output m (Z.to_nat i) = Some (shape, ty) ->
       onnx_get_output_size c' i = (0, Some (compute_tensor_size shape ty))).
Proof.
  intros Hs Ha Hi Ho Hn Hn' Mi Mo Li Lo.
  destruct (fill_sizes_seq (model_input m) (Z.to_nat (Z.min n 32)) 0 (input_sizes c))
    as [s [Ef [Ls [_ Ss]]]].
  { intros i Hr. apply Mi. lia. }
  destruct (fill_sizes_seq (model_output m) (Z.to_nat (Z.min n' 32)) 0 (output_sizes c))
    as [s' [Ef' [Ls' [_ Ss']]]].
  { intros i Hr. apply Mo. lia. }
  unfold onnx_load_from_file, populate_tensor_info. rewrite Hs, Ha, Hi, Ho.
  cbn [negb input_sizes output_sizes session input_bindings output_bindings].
  rewrite !clamp_count_min. unfold MAX_TENSORS. rewrite Ef, Ef'.
  eexists. split; [reflexivity|].
  cbn [session input_count output_count input_bindings output_bindings].
  repeat split; auto.
  - intros i shape ty Hr Hm. unfold onnx_get_input_size.
    cbn [input_count input_sizes]. rewrite to_size_t_small by lia.
    destruct (Z.geb_spec i (Z.min n 32)); [lia|]. rewrite (Ss (Z.to_nat i) shape ty); auto; lia.
  - intros i shape ty Hr Hm. unfold onnx_get_output_size.
    cbn [output_count output_sizes]. rewrite to_size_t_small by lia.
    destruct (Z.geb_spec i (Z.min n' 32)); [lia|]. rewrite (Ss' (Z.to_nat i) shape ty); auto; lia.
Qed.

Lemma onnx_load_success_witness :
  let m := mk_ort_model true true (Some 1) (Some 1)
             (fun _ => Some ([1; 3; 224; 224], 1)) (fun _ => Some ([1; 1000], 1)) in
  exists c', onnx_load_from_file onnx_calloc m = Some (0, c') /\
    onnx_get_input_size c' 0 = (0, Some (compute_tensor_size [1; 3; 224; 224] 1)) /\
    onnx_get_output_size c' 0 = (0, Some 4000).
Proof.
  intros m.
  destruct (onnx_load_success onnx_calloc m 1 1 eq_refl eq_refl eq_refl eq_refl
              ltac:(lia) ltac:(lia)
              ltac:(intros i _; do 2 eexists; split; [reflexivity|simpl; lia])
              ltac:(intros i _; do 2 eexists; split; [reflexivity|simpl; lia])
              eq_refl eq_refl)
    as [c' (E & _ & _ & _ & _ & _ & Gi & Go)].
  exists c'. split; [exact E|]. split.
  - apply Gi; [lia|reflexivity].
  - rewrite (Go 0 [1; 1000] 1); [reflexivity|lia|reflexivity].
Defined.

(** X22: an [onnx_load_from_file] that fails before the tensor metadata
    is read returns -1 and keeps the previous counts, sizes and bindings:
    when session creation fails the context is left without a session
    (ONNX Runtime nulls [c->session]); when it succeeds but the allocator
    or the input count query fails, the new session is kept. *)
Theorem onnx_load_early_failure (c : OnnxContext) (m : ort_model) :
  (create_session_ok m = false ->
   onnx_load_from_file c m
   = Some (-1, mk_onnx false (input_sizes c) (input_count c) (output_sizes c) (output_count c)
                       (input_bindings c) (output_bindings c))) /\
  (create_session_ok m = true -> (allocator_ok m = false \/ model_input_count m = None) ->
   onnx_load_from_file c m
   = Some (-1, mk_onnx true (input_sizes c) (input_count c) (output_sizes c) (output_count c)
                       (input_bindings c) (output_bindings c))).
Proof.
  split.
  - intros H. unfold onnx_load_from_file. rewrite H. reflexivity.
  - intros H [Ha|Hi]; unfold onnx_load_from_file, populate_tensor_info; rewrite H;
      cbn [negb].
    + rewrite Ha. reflexivity.
    + destruct (allocator_ok m); [|reflexivity]. cbn [negb]. rewrite Hi. reflexivity.
Qed.

(** X23: [onnx_set_input] and [onnx_set_output] reject every index outside
    0..31, negative C [int] indices included (the [size_t] cast wraps
    them above 32): they return -1 and leave the context unchanged. *)
Theorem onnx_set_rejects_out_of_range (c : OnnxContext) (i : Z) (buf : nat) (size : Z) :
  (- (2 ^ 63) <= i < 0 \/ 32 <= i < 2 ^ 64) ->
  onnx_set_input c i buf size = (-1, c) /\ onnx_set_output c i buf size = (-1, c).
Proof.
  intros H.
  assert (E : (to_size_t i >=? MAX_TENSORS) = true).
  { apply Z.geb_le. unfold to_size_t, MAX_TENSORS. destruct H as [H|H].
    - rewrite <- (Z.mod_add i 1 (2 ^ 64)) by lia. rewrite Z.mod_small by lia. lia.
    - rewrite Z.mod_small by lia. lia. }
  unfold onnx_set_input, onnx_set_output. rewrite E. split; reflexivity.
Qed.

Lemma onnx_set_rejects_out_of_range_witness :
  (- (2 ^ 63) <= -1 < 0 \/ 32 <= -1 < 2 ^ 64) /\
  onnx_set_output onnx_calloc (-1) 4096 16 = (-1, onnx_calloc).
Proof.
  split; [left; lia|].
  exact (proj2 (onnx_set_rejects_out_of_range onnx_calloc (-1) 4096 16 ltac:(left; lia))).
Defined.

(** X24: after [onnx_set_output] binds a non-NULL buffer of [size] bytes to
    output [i] of a loaded model, an [onnx_invoke] in which ONNX Runtime
    succeeds returns 0 and copies min([size], output size) bytes into
    that buffer. *)
Theorem onnx_output_written_after_set (c : OnnxContext) (ort : ort_answers)
    (i : Z) (buf : nat) (size : Z) :
  session c = true -> (forall j, create_tensor_ok ort j = true) -> run_ok ort = true ->
  (forall j, output_present ort j = true) -> (forall j, get_data_ok ort j = true) ->
  0 <= i < output_count c -> output_count c <= 32 -> buf <> 0%nat ->
  length (output_bindings c) = 32%nat ->
  fst (onnx_set_output c i buf size) = 0 /\
  fst (onnx_invoke (snd (onnx_set_output c i buf size)) ort) = 0 /\
  In (buf, Z.min size (nth (Z.to_nat i) (output_sizes c) 0))
     (snd (onnx_invoke (snd (onnx_set_output c i buf size)) ort)).
Proof.
  intros Hs Hc Hr Hp Hg Hi Ho Hb Hl.
  assert (E : (to_size_t i >=? MAX_TENSORS) = false).
  { rewrite to_size_t_small by lia. unfold MAX_TENSORS. destruct (Z.geb_spec i 32); [lia|reflexivity]. }
  unfold onnx_set_output. rewrite E. cbn [fst snd]. split; [reflexivity|].
  unfold onnx_invoke. cbn [session input_count output_count]. rewrite Hs, Hr.
  rewrite (proj2 (forallb_forall _ _) (fun j _ => Hc j)). cbn [negb].
  rewrite copy_outputs_all_ok by assumption. cbn [fst snd]. split; [reflexivity|].
  apply in_flat_map. exists (Z.to_nat i). split; [apply in_seq; lia|].
  cbn [output_bindings output_sizes]. rewrite nth_upd_eq by lia.
  apply Nat.eqb_neq in Hb. rewrite Hb. left. f_equal.
  destruct (Z.gtb_spec size (nth (Z.to_nat i) (output_sizes c) 0)); lia.
Qed.

Lemma onnx_output_written_after_set_witness :
  let c := mk_onnx true (repeat 0 32) 0 (repeat 40 32) 1
                   (repeat (0%nat, 0) 32) (repeat (0%nat, 0) 32) in
  let ort := mk_ort (fun _ => true) true (fun _ => true) (fun _ => true) in
  session c = true /\ 0 <= 0 < output_count c /\
  In (4096%nat, Z.min 16 (nth 0 (output_sizes c) 0))
     (snd (onnx_invoke (snd (onnx_set_output c 0 4096 16)) ort)).
Proof.
  intros c ort. split; [reflexivity|]. split; [simpl; lia|].
  pose proof (onnx_output_written_after_set c ort 0 4096 16 eq_refl (fun _ => eq_refl) eq_refl
                (fun _ => eq_refl) (fun _ => eq_refl) ltac:(simpl; lia) ltac:(simpl; lia)
                ltac:(discriminate) eq_refl) as [_ [_ H]].
  exact H.
Defined.

End OnnxExtra.

Module TfliteExtra.
Import Mem MemFacts Tflite.
Local Open Scope Z_scope.

(** X25: after [tflite_set_output] binds a non-NULL buffer of [size] bytes
    to output [i], a successful [tflite_invoke] returns 0 and copies the
    whole tensor into the buffer when [size] is at least the tensor's
    byte size; when [size] is smaller, nothing at all is copied into the
    buffer (unless another binding uses it), and invoke still returns 0. *)
Theorem tflite_output_copy_all_or_nothing (c : TFLiteContext) (t : tflite_answers)
    (i : Z) (buf : nat) (size tsize : Z) :
  interpreter c = true -> invoke_ok t = true -> 0 <= i < 32 -> buf <> 0%nat ->
  output_tensor t i = Some tsize -> length (output_bindings c) = 32%nat ->
  exists c', tflite_set_output c i buf size = Some (0, c') /\
    fst (tflite_invoke c' t) = 0 /\
    (tsize <= size -> In (buf, tsize) (snd (tflite_invoke c' t))) /\
    (size < tsize ->
     (forall j, j <> Z.to_nat i -> fst (nth j (output_bindings c) (0%nat, 0)) <> buf) ->
     forall n, ~ In (buf, n) (snd (tflite_invoke c' t))).
Proof.
  intros Hi Hv Hr Hb Ht Hl.
  unfold tflite_set_output. destruct (Z.ltb_spec i 0); [lia|].
  destruct (Z.geb_spec i MAX_TENSORS); [unfold MAX_TENSORS in *; lia|].
  eexists. split; [reflexivity|].
  unfold tflite_invoke. cbn [interpreter output_bindings output_binding_count].
  rewrite Hi, Hv. cbn [negb fst snd]. split; [reflexivity|].
  set (cnt := if i >=? output_binding_count c then i + 1 else output_binding_count c).
  assert (Hc : (Z.to_nat i < Z.to_nat cnt)%nat).
  { unfold cnt. destruct (Z.geb_spec i (output_binding_count c)); lia. }
  assert (Hn : nth (Z.to_nat i) (upd (output_bindings c) (Z.to_nat i) (buf, size)) (0%nat, 0)
               = (buf, size)) by (apply nth_upd_eq; lia).
  assert (Hti : output_tensor t (Z.of_nat (Z.to_nat i)) = Some tsize)
    by (rewrite Z2Nat.id by lia; exact Ht).
  apply Nat.eqb_neq in Hb as Hb'.
  split.
  - intros Hle. apply in_flat_map. exists (Z.to_nat i). split; [apply in_seq; lia|].
    rewrite Hn, Hb', Hti. unfold copy_to_buffer.
    destruct (Z.gtb_spec size tsize).
    + rewrite Z.eqb_refl. left. reflexivity.
    + replace size with tsize by lia. rewrite Z.eqb_refl. left. reflexivity.
  - intros Hlt Hother n Hin. apply in_flat_map in Hin as [j [_ Hj]].
    destruct (Nat.eq_dec j (Z.to_nat i)) as [->|Hne].
    + rewrite Hn, Hb', Hti in Hj. unfold copy_to_buffer in Hj.
      destruct (Z.gtb_spec size tsize); [lia|].
      destruct (Z.eqb_spec size tsize); [lia|]. destruct Hj.
    + rewrite nth_upd_neq in Hj by lia.
      destruct (nth j (output_bindings c) (0%nat, 0)) as [b bs] eqn:E.
      destruct (b =? 0)%nat; [destruct Hj|].
      destruct (output_tensor t (Z.of_nat j)) as [ts|]; [|destruct Hj].
      unfold copy_to_buffer in Hj.
      destruct ((if bs >? ts then ts else bs) =? ts); [|destruct Hj].
      destruct Hj as [Hj|[]]. injection Hj as Hbuf _.
      apply (Hother j Hne). rewrite E. exact Hbuf.
Qed.

Lemma tflite_output_copy_all_or_nothing_witness :
  let c := mk_tflite true (repeat (0%nat, 0) 32) 0 in
  let t := mk_tfl true (fun _ => Some 16) (fun _ => Some 40) in
  interpreter c = true /\ output_tensor t 0 = Some 40 /\
  exists c', tflite_set_output c 0 4096 16 = Some (0, c') /\
    forall n, ~ In (4096%nat, n) (snd (tflite_invoke c' t)).
Proof.
  intros c t. split; [reflexivity|]. split; [reflexivity|].
  destruct (tflite_output_copy_all_or_nothing c t 0 4096 16 40 eq_refl eq_refl
              ltac:(lia) ltac:(discriminate) eq_refl eq_refl) as [c' [E [_ [_ H]]]].
  exists c'. split; [exact E|]. apply H; [lia|].
  intros j Hj. unfold c. cbn [output_bindings].
  rewrite nth_repeat. discriminate.
Defined.

(** X26: before a model is loaded (no interpreter), the TFLite backend
    refuses everything except binding outputs: the counts, sizes,
    [tflite_set_input] and [tflite_invoke] all return -1 and invoke
    writes nothing, while [tflite_set_output] accepts any index 0..31. *)
Theorem tflite_no_interpreter (c : TFLiteContext) (t : tflite_answers) :
  interpreter c = false ->
  (forall n, tflite_get_count c n = (-1, None)) /\
  (forall i, tflite_get_input_size c t i = (-1, None) /\
             tflite_get_output_size c t i = (-1, None)) /\
  (forall i size, tflite_set_input c t i size = -1) /\
  tflite_invoke c t = (-1, []) /\
  (forall i buf size, 0 <= i < 32 ->
     exists c', tflite_set_output c i buf size = Some (0, c')).
Proof.
  intros H. unfold tflite_get_count, tflite_get_input_size, tflite_get_output_size,
    tflite_set_input, tflite_invoke. rewrite H. cbn [negb].
  repeat split; auto.
  intros i buf size Hr. unfold tflite_set_output.
  destruct (Z.ltb_spec i 0); [lia|]. destruct (Z.geb_spec i MAX_TENSORS); [unfold MAX_TENSORS in *; lia|].
  eexists. reflexivity.
Qed.

Lemma tflite_no_interpreter_witness :
  interpreter tflite_calloc = false /\
  tflite_invoke tflite_calloc (mk_tfl true (fun _ => Some 4) (fun _ => Some 4)) = (-1, []).
Proof.
  split; [reflexivity|].
  exact (proj1 (proj2 (proj2 (proj2 (tflite_no_interpreter tflite_calloc
                                      (mk_tfl true (fun _ => Some 4) (fun _ => Some 4))
                                      eq_refl))))).
Defined.

(** X27: [tflite_load_from_file] returns 0 exactly when the model, the
    interpreter and the tensor allocation all succeed; it never touches
    the output bindings; when the model cannot be created the context
    (and any previous interpreter) is kept; otherwise the interpreter is
    set whenever it was created, so after a failed tensor allocation the
    count queries still succeed. *)
Theorem tflite_load_outcome (c : TFLiteContext) (a : tflite_load_answers) :
  let r := tflite_load_from_file c a in
  (fst r = 0 <-> model_created a = true /\ interpreter_created a = true /\
                 allocate_ok a = true) /\
  (fst r = 0 \/ fst r = -1) /\
  output_bindings (snd r) = output_bindings c /\
  output_binding_count (snd r) = output_binding_count c /\
  (model_created a = false -> snd r = c) /\
  (model_created a = true -> interpreter (snd r) = interpreter_created a).
Proof.
  cbv zeta. unfold tflite_load_from_file, tflite_build_interpreter.
  destruct c as [ip ob oc], a as [mc ic al]; cbn [model_created interpreter_created allocate_ok].
  destruct mc, ic, al; cbn; repeat split; auto; try discriminate; intros [? [? ?]]; discriminate.
Qed.

End TfliteExtra.
